(** * SAGE feature-importance estimators (importance/sage_sklearn.py)

    A shallow embedding of [estimate_total], [permutation_sampling] and
    [iterated_sampling], and the properties of the estimation engine that
    follow from the code.

    Conventions of the embedding.
    - Numbers.  numpy/torch scalars are elements of a type [num] carrying the
      operations the code uses ([Numeric]); nothing is assumed about them
      unless a theorem names a law class ([ExactArith], [OrderedArith]).
      Python integers ([N], [n], [len(x)]) are [nat].
    - Arrays.  A 1-D array is a [list num]; a 2-D array or tensor is a list
      of rows.  A prediction array has one row of [k] outputs per example (a
      1-D regression output is a row of length 1).  The 0/1 float mask [S]
      is a matrix of booleans ([true] is 1.0).
    - Randomness.  Every call that draws from torch's generator takes and
      returns the generator state [rng].  Iterating a [DataLoader] draws all
      its indices when the iterator is created, so one iteration is a
      function [rng -> list batch * rng].
    - Exceptions raised by the code itself are values of [res].
    - [verbose] and [bar] only drive printing and the progress bar; the
      embedding is of the runs with both off.  The one [print] outside
      [verbose] (the m_samples notice) is kept, as the list of lines written
      to standard output. *)

From Stdlib Require Import QArith Qcanon.
From stdpp Require Import base list strings.

(** ** Numbers *)

Class Numeric (num : Type) := {
  fzero : num;                       (* 0 *)
  fadd : num -> num -> num;          (* a + b *)
  fsub : num -> num -> num;          (* a - b *)
  fmul : num -> num -> num;          (* a * b *)
  fdiv : num -> num -> num;          (* a / b *)
  fsqrt : num -> num;                (* a ** 0.5 *)
  flt : num -> num -> bool;          (* a < b *)
  of_int : nat -> num                (* promotion of a Python int *)
}.

(** Exceptions the code raises by itself. *)
Inductive exn := AssertionError | ValueError.

Inductive res (A : Type) :=
| Ok (a : A)
| Raise (e : exn).
Arguments Ok {A} a.
Arguments Raise {A} e.

(** ** Array helpers *)

Section Arrays.
Context {num : Type} `{Numeric num}.

(** [np.sum(v)] and [np.mean(v)] of a 1-D array. *)
Definition np_sum (v : list num) : num := fold_left fadd v fzero.

Definition np_mean (v : list num) : num :=
  fdiv (np_sum v) (of_int (length v)).

(** Elementwise [u + v] and [u - v] of arrays of one shape. *)
Definition vadd (u v : list num) : list num := zip_with fadd u v.
Definition vsub (u v : list num) : list num := zip_with fsub u v.
Definition madd (a b : list (list num)) : list (list num) := zip_with vadd a b.

(** Sum along axis 0: the slices are added from the first on.  Without
    any slice the result is the empty array. *)
Definition sum_axis0 {A} (plus : A -> A -> A) (empty : A) (l : list A) : A :=
  match l with
  | [] => empty
  | a :: r => fold_left plus r a
  end.

(** [np.mean(pred, axis=0, keepdims=True)]: the column means of a 2-D
    array, as one row. *)
Definition mean_axis0 (M : list (list num)) : list num :=
  map (fun s => fdiv s (of_int (length M))) (sum_axis0 vadd [] M).

(** [t.repeat(m, 1)] on a tensor and [a.repeat(k, 0)] on a one-row
    array: [m] copies of the rows, one after the other. *)
Definition repeat_rows {A} (m : nat) (rows : list A) : list A :=
  concat (replicate m rows).

(** [y_hat.reshape((m_samples, -1, ...))]: [m] consecutive blocks of
    [len(y_hat) / m] rows.  numpy raises when [m] is 0 or does not divide
    the number of rows; with [m >= 1] a predictor that returns one row per
    input row (the Predictor contract) never gets there. *)
Definition reshape (m : nat) (rows : list (list num)) : list (list (list num)) :=
  let n := length rows / m in
  map (fun j => take n (drop (j * n) rows)) (seq 0 m).

(** [np.mean(blocks, axis=0)] of a 3-D array. *)
Definition mean_blocks (blocks : list (list (list num))) : list (list num) :=
  map (map (fun s => fdiv s (of_int (length blocks)))) (sum_axis0 madd [] blocks).

(** The two lines
    [y_hat = np.mean(y_hat.reshape((m_samples, -1, *y_hat.shape[1:])), axis=0)]. *)
Definition replicate_mean (m : nat) (y_hat : list (list num)) : list (list num) :=
  mean_blocks (reshape m y_hat).

(** [np.max(v)]; numpy raises ValueError on an empty array. *)
Definition np_max (v : list num) : res num :=
  match v with
  | [] => Raise ValueError
  | a :: r => Ok (fold_left (fun acc b => if flt acc b then b else acc) r a)
  end.

(** A value that is either the Python int it was initialised with or the
    one-row array it became: [marginal_pred] in [estimate_total]. *)
Inductive ndarray :=
| Scalar (c : num)
| Row (v : list num).

(** Broadcasting arithmetic on [ndarray]. *)
Definition nd_scale (c : num) (a : ndarray) : ndarray :=
  match a with
  | Scalar x => Scalar (fmul c x)
  | Row v => Row (map (fmul c) v)
  end.

Definition nd_add (a b : ndarray) : ndarray :=
  match a, b with
  | Scalar x, Scalar y => Scalar (fadd x y)
  | Scalar x, Row v => Row (map (fadd x) v)
  | Row u, Scalar y => Row (map (fun a => fadd a y) u)
  | Row u, Row v => Row (vadd u v)
  end.

Definition nd_div (a : ndarray) (c : num) : ndarray :=
  match a with
  | Scalar x => Scalar (fdiv x c)
  | Row v => Row (map (fun a => fdiv a c) v)
  end.

(** [marginal_pred.repeat(k, 0)].  A Python int has no [repeat]; the
    second pass of [estimate_total] runs its body only for a batch the
    first pass has seen, when [marginal_pred] is an array (see
    [pass1_marginal_is_row]). *)
Definition nd_repeat (a : ndarray) (k : nat) : list (list num) :=
  match a with
  | Scalar x => replicate k [x]
  | Row v => repeat_rows k [v]
  end.
End Arrays.
Arguments ndarray num : clear implicits.

(** [DataLoader(dataset, batch_size=b)] without a sampler: consecutive
    slices of [b] items, the last one shorter.  The recursion is on a
    counter that starts at the number of items, which is enough for
    [b >= 1] ([chunks_concat]); torch rejects [b = 0]. *)
Fixpoint chunks_fuel {A} (fuel b : nat) (l : list A) : list (list A) :=
  match fuel with
  | 0 => []
  | S f =>
      match l with
      | [] => []
      | _ :: _ => take b l :: chunks_fuel f b (drop b l)
      end
  end.

Definition chunks {A} (b : nat) (l : list A) : list (list A) :=
  chunks_fuel (length l) b l.

(** ** estimate_total *)

(** A batch [(x, y)]: the rows of [x] and their labels. *)
Definition batch (num label : Type) : Type := (list (list num) * list label)%type.

(** A dataset: its examples and [dataset.input_size]. *)
Record dataset (num label : Type) := {
  items : list (list num * label);
  input_size : nat
}.
Arguments items {num label} _.
Arguments input_size {num label} _.

(** The model object: [isinstance(model, sklearn.base.ClassifierMixin)] and
    its two prediction methods. *)
Record sklearn_model (num : Type) := {
  classifier_mixin : bool;
  predict : list (list num) -> list (list num);
  predict_proba : list (list num) -> list (list num)
}.
Arguments classifier_mixin {num} _.
Arguments predict {num} _.
Arguments predict_proba {num} _.

(** Modelled from the spec: models.utils.SklearnClassifierWrapper is not
    among the sources; the adapter makes [predict] return the wrapped
    classifier's class-probability vectors. *)
Definition SklearnClassifierWrapper {num} (m : sklearn_model num) : sklearn_model num :=
  {| classifier_mixin := false;
     predict := predict_proba m;
     predict_proba := predict_proba m |}.

Section EstimateTotal.
Context {num : Type} `{Numeric num} {label : Type}.

(** The default collate function: the examples of a slice become one
    tensor of inputs and one of labels. *)
Definition collate (items : list (list num * label)) : batch num label :=
  (map fst items, map snd items).

Definition DataLoader (data : dataset num label) (batch_size : nat)
  : list (batch num label) :=
  map collate (chunks batch_size (items data)).

(** The local variables of [estimate_total].  [divisors] is not a Python
    variable: it records, oldest first, each value of [(N + n)] the loop
    has divided by. *)
Record totals := {
  N : nat;
  mean_loss : num;
  marginal_pred : ndarray num;
  marginal_loss : num;
  divisors : list nat
}.

(** [(N * old + n * v) / (N + n)] on scalars and on arrays. *)
Definition weighted (N : nat) (old : num) (n : nat) (v : num) : num :=
  fdiv (fadd (fmul (of_int N) old) (fmul (of_int n) v)) (of_int (N + n)).

Definition nd_weighted (N : nat) (old : ndarray num) (n : nat) (v : list num)
  : ndarray num :=
  nd_div (nd_add (nd_scale (of_int N) old) (nd_scale (of_int n) (Row v)))
         (of_int (N + n)).

Variable model : sklearn_model num.
Variable loss_fn : list (list num) -> list label -> list num.

(** Body of the first loop. *)
Definition pass1_step (t : totals) (b : batch num label) : totals :=
  let '(x, y) := b in
  let n := length x in
  let pred := predict model x in
  let loss := loss_fn pred y in
  {| N := N t + n;
     mean_loss := weighted (N t) (mean_loss t) n (np_mean loss);
     marginal_pred := nd_weighted (N t) (marginal_pred t) n (mean_axis0 pred);
     marginal_loss := marginal_loss t;
     divisors := divisors t ++ [N t + n; N t + n] |}.

(** Body of the second loop. *)
Definition pass2_step (t : totals) (b : batch num label) : totals :=
  let '(x, y) := b in
  let n := length x in
  let marginal_pred_repeat := nd_repeat (marginal_pred t) (length y) in
  let loss := loss_fn marginal_pred_repeat y in
  {| N := N t + n;
     mean_loss := mean_loss t;
     marginal_pred := marginal_pred t;
     marginal_loss := weighted (N t) (marginal_loss t) n (np_mean loss);
     divisors := divisors t ++ [N t + n] |}.

Definition totals_init : totals :=
  {| N := 0; mean_loss := fzero; marginal_pred := Scalar fzero;
     marginal_loss := fzero; divisors := [] |}.

(** The two loops over [sequential_loader], with [N = 0] and
    [marginal_loss = 0] set between them. *)
Definition estimate_total_run (sequential_loader : list (batch num label)) : totals :=
  let t1 := fold_left pass1_step sequential_loader totals_init in
  let t1' := {| N := 0; mean_loss := mean_loss t1;
                marginal_pred := marginal_pred t1;
                marginal_loss := fzero; divisors := divisors t1 |} in
  fold_left pass2_step sequential_loader t1'.

Definition estimate_total_on (sequential_loader : list (batch num label)) : num :=
  let t := estimate_total_run sequential_loader in
  fsub (marginal_loss t) (mean_loss t).

Definition estimate_total (data : dataset num label) (batch_size : nat) : num :=
  estimate_total_on (DataLoader data batch_size).

(** *** The running means as the specification words them:
    [new = (N·old + n·batch_value)/(N+n)], started from 0 examples. *)
Fixpoint running_mean (N : nat) (old : num) (obs : list (nat * num)) : num :=
  match obs with
  | [] => old
  | (n, v) :: rest =>
      running_mean (N + n)
        (fdiv (fadd (fmul (of_int N) old) (fmul (of_int n) v)) (of_int (N + n)))
        rest
  end.

Fixpoint running_mean_nd (N : nat) (old : ndarray num) (obs : list (nat * list num))
  : ndarray num :=
  match obs with
  | [] => old
  | (n, v) :: rest => running_mean_nd (N + n) (nd_weighted N old n v) rest
  end.

(** Mean loss of the model's own predictions. *)
Definition spec_mean_loss (bs : list (batch num label)) : num :=
  running_mean 0 fzero
    (map (fun b : batch num label =>
            (length b.1, np_mean (loss_fn (predict model b.1) b.2))) bs).

(** The dataset-wide mean prediction. *)
Definition spec_marginal_pred (bs : list (batch num label)) : ndarray num :=
  running_mean_nd 0 (Scalar fzero)
    (map (fun b : batch num label => (length b.1, mean_axis0 (predict model b.1))) bs).

(** Mean loss of predicting [mp] for every example. *)
Definition spec_marginal_loss (mp : ndarray num) (bs : list (batch num label)) : num :=
  running_mean 0 fzero
    (map (fun b : batch num label =>
            (length b.1, np_mean (loss_fn (nd_repeat mp (length b.2)) b.2))) bs).
End EstimateTotal.
Arguments totals num : clear implicits.

(** ** External collaborators of the two estimators *)

(** The type of [imputation_module.impute(x, S)]: a stochastic module draws
    from the generator. *)
Definition impute_fn (num rng : Type) : Type :=
  list (list num) -> list (list bool) -> rng -> list (list num) * rng.

(** The [imputation_module] argument, by the two [isinstance] tests the
    estimators make. *)
Inductive imputation_module (num rng : Type) :=
| ReferenceImputation (impute : impute_fn num rng)
    (* an instance of utils.ReferenceImputation *)
| OtherImputation (impute : impute_fn num rng)
    (* any other utils.ImputationModule, such as MarginalImputation *)
| NotImputation.
    (* an object that is no utils.ImputationModule *)
Arguments ReferenceImputation {num rng} impute.
Arguments OtherImputation {num rng} impute.
Arguments NotImputation {num rng}.

(** The interface of utils.ImportanceTracker, which is not among the
    sources: a constructor, [update(scores)], and the properties [scores]
    and [var].  [obs] is the array handed to [update], [stat] the shape of
    the two properties. *)
Record ImportanceTracker (obs stat : Type) := {
  tracker : Type;
  tracker_new : tracker;
  tracker_update : tracker -> obs -> tracker;
  tracker_scores : tracker -> stat;
  tracker_var : tracker -> stat
}.
Arguments tracker {obs stat} _.
Arguments tracker_new {obs stat} _.
Arguments tracker_update {obs stat} _ _ _.
Arguments tracker_scores {obs stat} _ _.
Arguments tracker_var {obs stat} _ _.

(** What the estimators import and do not define. *)
Record Env (num label rng : Type) := {
  (* utils.get_loss_np(loss, reduction='none') *)
  get_loss_np : string -> list (list num) -> list label -> list num;
  (* one iteration over DataLoader(dataset, batch_sampler=BatchSampler(
     RandomSampler(dataset, replacement=True, num_samples=n_samples),
     batch_size=batch_size, drop_last=False)) *)
  random_loader : dataset num label -> nat -> nat -> rng -> list (batch num label) * rng;
  (* torch.randperm(input_size) *)
  randperm : nat -> rng -> list nat * rng;
  (* utils.sample_subset_feature(input_size, n, ind) *)
  sample_subset_feature : nat -> nat -> nat -> rng -> list (list bool) * rng;
  (* utils.ImportanceTracker() fed n x d arrays *)
  tracker2 : ImportanceTracker (list (list num)) (list num);
  (* utils.ImportanceTracker() fed 1-D arrays *)
  tracker1 : ImportanceTracker (list num) num
}.
Arguments get_loss_np {num label rng} _.
Arguments random_loader {num label rng} _.
Arguments randperm {num label rng} _.
Arguments sample_subset_feature {num label rng} _.
Arguments tracker2 {num label rng} _.
Arguments tracker1 {num label rng} _.

(** ** Steps shared by the two estimators *)

Section Shared.
Context {num : Type} `{Numeric num} {label rng : Type}.

(** The opening of both estimators: wrap a classifier, check the
    imputation module, clamp [m_samples].  The result is the model to
    use, the [impute] method, the replicate count and what was printed. *)
Definition notice : string := "Using ReferenceImputation, setting m_samples = 1".

Definition wrap_model (model : sklearn_model num) : sklearn_model num :=
  if classifier_mixin model then SklearnClassifierWrapper model else model.

Definition check_imputation (imputation_module : imputation_module num rng)
    (m_samples : nat) : res (impute_fn num rng * nat * list string) :=
  match imputation_module with
  | NotImputation => Raise AssertionError
  | ReferenceImputation impute =>
      if decide (m_samples ≠ 1) then Ok (impute, 1, [notice])
      else Ok (impute, m_samples, [])
  | OtherImputation impute => Ok (impute, m_samples, [])
  end.

Variable model : sklearn_model num.
Variable impute : impute_fn num rng.
Variable loss_fn : list (list num) -> list label -> list num.
Variable m_samples : nat.

(** The three statements that occur four times in the file:
    [y_hat = model.predict(imputation_module.impute(x, S).cpu().numpy())],
    [y_hat = np.mean(y_hat.reshape((m_samples, -1, ...)), axis=0)],
    [loss_fn(y_hat, y)]. *)
Definition masked_loss (x : list (list num)) (S : list (list bool))
    (y : list label) (g : rng) : list num * rng :=
  let '(x_imp, g') := impute x S g in
  let y_hat := predict model x_imp in
  let y_hat := replicate_mean m_samples y_hat in
  (loss_fn y_hat y, g').
End Shared.

(** ** permutation_sampling *)

Section Permutation.
Context {num : Type} `{Numeric num} {label rng : Type}.
Variable E : Env num label rng.

(** [arange[p]]: indexing a 1-D tensor with an index tensor.  torch
    raises on an index out of range; [randperm] returns none. *)
Definition index_with (arange p : list nat) : list nat :=
  map (fun j => nth j arange 0) p.

(** [permutations = torch.arange(input_size).repeat(n, 1)] followed by
    the loop that replaces row [i] by [permutations[i, torch.randperm(input_size)]]. *)
Fixpoint sample_permutations (n input_size : nat) (g : rng) : list (list nat) * rng :=
  match n with
  | 0 => ([], g)
  | S n' =>
      let '(p, g1) := randperm E input_size g in
      let '(rows, g2) := sample_permutations n' input_size g1 in
      (index_with (seq 0 input_size) p :: rows, g2)
  end.

(** [permutations[:, i]].  *)
Definition column (i : nat) (permutations : list (list nat)) : list nat :=
  map (fun row => nth i row 0) permutations.

(** [S[arange_long, inds] = 1.0]: row [r] gets a 1 at column [inds[r]].
    torch raises on a column out of range; here the row is unchanged. *)
Definition set_ones (S : list (list bool)) (inds : list nat) : list (list bool) :=
  zip_with (fun row j => <[j:=true]> row) S inds.

(** [scores[arange, inds[:n]] = delta]: row [r] gets [delta[r]] at column
    [inds[r]], for the first [n] rows. *)
Definition assign (scores : list (list num)) (inds : list nat) (delta : list num)
  : list (list num) :=
  zip_with (fun row jv => <[jv.1:=jv.2]> row) scores (zip inds delta).

Variable model : sklearn_model num.
Variable impute : impute_fn num rng.
Variable loss_fn : list (list num) -> list label -> list num.
Variable input_size : nat.
Variable m_samples : nat.

(** The variables the reveal loop changes. *)
Record reveal := {
  mask : list (list bool);     (* S *)
  prev_loss : list num;
  scores : list (list num);
  gen : rng
}.

Section Batch.
Variable x : list (list num).          (* after [x.repeat(m_samples, 1)] *)
Variable y : list label.
Variable n : nat.
Variable permutations : list (list nat).   (* after [repeat(m_samples, 1)] *)

(** Body of [for i in range(input_size)]. *)
Definition reveal_step (st : reveal) (i : nat) : reveal :=
  let inds := column i permutations in
  let S := set_ones (mask st) inds in
  let '(loss, g') := masked_loss model impute loss_fn m_samples x S y (gen st) in
  {| mask := S;
     prev_loss := loss;
     scores := assign (scores st) (take n inds) (vsub (prev_loss st) loss);
     gen := g' |}.

(** The state after the first [k] reveal positions. *)
Definition reveal_upto (st0 : reveal) (k : nat) : reveal :=
  fold_left reveal_step (seq 0 k) st0.
End Batch.

(** Body of [for x, y in loader] up to the tracker update: the state
    before the reveal loop ... *)
Definition reveal_init (b : batch num label) (g : rng)
  : list (list num) * list (list nat) * reveal :=
  let '(x, y) := b in
  let n := length x in
  let S := replicate n (replicate input_size false) in
  let '(permutations, g1) := sample_permutations n input_size g in
  let S := repeat_rows m_samples S in
  let permutations := repeat_rows m_samples permutations in
  let x := repeat_rows m_samples x in
  let '(prev_loss, g2) := masked_loss model impute loss_fn m_samples x S y g1 in
  (x, permutations,
   {| mask := S; prev_loss := prev_loss;
      scores := replicate n (replicate input_size fzero);
      gen := g2 |}).

(** ... and the state after it. *)
Definition reveal_all (b : batch num label) (g : rng) : reveal :=
  let '(x, permutations, st0) := reveal_init b g in
  reveal_upto x b.2 (length b.1) permutations st0 input_size.

Variable total : num.
Variable detect_convergence : bool.
Variable convergence_threshold : num.

(** [tracker.update(scores)] for one batch. *)
Definition batch_update (tr : tracker (tracker2 E)) (b : batch num label) (g : rng)
  : tracker (tracker2 E) * rng :=
  let st := reveal_all b g in
  (tracker_update (tracker2 E) tr (scores st), gen st).

(** [conf = np.max(tracker.var) ** 0.5]. *)
Definition conf_of (tr : tracker (tracker2 E)) : res num :=
  match np_max (tracker_var (tracker2 E) tr) with
  | Ok mx => Ok (fsqrt mx)
  | Raise e => Raise e
  end.

(** [(conf / total) < convergence_threshold]. *)
Definition below_threshold (conf : num) : bool :=
  flt (fdiv conf total) convergence_threshold.

(** [for x, y in loader: ...] with its [break]. *)
Fixpoint sampling_loop (loader : list (batch num label))
    (tr : tracker (tracker2 E)) (g : rng) : res (tracker (tracker2 E) * rng) :=
  match loader with
  | [] => Ok (tr, g)
  | b :: rest =>
      let '(tr1, g1) := batch_update tr b g in
      match conf_of tr1 with
      | Raise e => Raise e
      | Ok conf =>
          if detect_convergence && below_threshold conf then Ok (tr1, g1)
          else sampling_loop rest tr1 g1
      end
  end.
End Permutation.
Arguments reveal num rng : clear implicits.

Definition permutation_sampling {num} `{Numeric num} {label rng : Type}
    (E : Env num label rng)
    (model : sklearn_model num) (data : dataset num label)
    (imputation_module : imputation_module num rng) (loss : string)
    (batch_size n_samples m_samples : nat)
    (detect_convergence : bool) (convergence_threshold : num)
    (g : rng) : list string * res (list num) :=
  let model := wrap_model model in
  match check_imputation imputation_module m_samples with
  | Raise e => ([], Raise e)
  | Ok (impute, m_samples, stdout) =>
      let input_size := input_size data in
      let loss_fn := get_loss_np E loss in
      let total := estimate_total model loss_fn data batch_size in
      let '(loader, g1) := random_loader E data batch_size n_samples g in
      match sampling_loop E model impute loss_fn input_size m_samples total
              detect_convergence convergence_threshold
              loader (tracker_new (tracker2 E)) g1 with
      | Raise e => (stdout, Raise e)
      | Ok (tr, _) => (stdout, Ok (tracker_scores (tracker2 E) tr))
      end
  end.

(** ** iterated_sampling *)

Section Iterated.
Context {num : Type} `{Numeric num} {label rng : Type}.
Variable E : Env num label rng.

(** [S[:, ind] = 1.0].  torch raises when the mask has no column [ind];
    here such a row is unchanged. *)
Definition set_column (ind : nat) (S : list (list bool)) : list (list bool) :=
  map (fun row => <[ind:=true]> row) S.

(** [np.stack(scores)]; numpy raises ValueError on an empty list. *)
Definition np_stack {A} (arrays : list A) : res (list A) :=
  match arrays with
  | [] => Raise ValueError
  | _ :: _ => Ok arrays
  end.

Variable model : sklearn_model num.
Variable impute : impute_fn num rng.
Variable loss_fn : list (list num) -> list label -> list num.
Variable input_size : nat.
Variable m_samples : nat.

(** What one minibatch computes for feature [ind], up to
    [loss_discluded - loss_included]. *)
Record subset_eval := {
  x_rep : list (list num);          (* x after [x.repeat(m_samples, 1)] *)
  S_discluded : list (list bool);   (* S at the first evaluation *)
  loss_discluded : list num;
  S_included : list (list bool);    (* S at the second evaluation *)
  loss_included : list num;
  delta : list num;                 (* the argument of tracker.update *)
  gen_after : rng
}.

Definition subset_step (ind : nat) (b : batch num label) (g : rng) : subset_eval :=
  let '(x, y) := b in
  let n := length x in
  let '(S0, g1) := sample_subset_feature E input_size n ind g in
  let S := repeat_rows m_samples S0 in
  let x := repeat_rows m_samples x in
  let '(loss_d, g2) := masked_loss model impute loss_fn m_samples x S y g1 in
  let S' := set_column ind S in
  let '(loss_i, g3) := masked_loss model impute loss_fn m_samples x S' y g2 in
  {| x_rep := x; S_discluded := S; loss_discluded := loss_d;
     S_included := S'; loss_included := loss_i;
     delta := vsub loss_d loss_i; gen_after := g3 |}.

Variable total : num.
Variable detect_convergence : bool.
Variable convergence_threshold : num.

(** [for x, y in loader: ...] for one feature, with its [break]. *)
Fixpoint feature_loop (ind : nat) (loader : list (batch num label))
    (tr : tracker (tracker1 E)) (g : rng) : tracker (tracker1 E) * rng :=
  match loader with
  | [] => (tr, g)
  | b :: rest =>
      let ev := subset_step ind b g in
      let tr1 := tracker_update (tracker1 E) tr (delta ev) in
      let conf := fsqrt (tracker_var (tracker1 E) tr1) in
      if detect_convergence && flt (fdiv conf total) convergence_threshold
      then (tr1, gen_after ev)
      else feature_loop ind rest tr1 (gen_after ev)
  end.

Variable data : dataset num label.
Variable batch_size n_samples : nat.

(** [for ind in range(input_size): ...]; [scores] is the Python list the
    loop appends to. *)
Fixpoint features_loop (inds : list nat) (scores : list num) (g : rng)
  : list num * rng :=
  match inds with
  | [] => (scores, g)
  | ind :: rest =>
      let '(loader, g1) := random_loader E data batch_size n_samples g in
      let '(tr, g2) := feature_loop ind loader (tracker_new (tracker1 E)) g1 in
      features_loop rest (scores ++ [tracker_scores (tracker1 E) tr]) g2
  end.
End Iterated.
Arguments subset_eval num rng : clear implicits.

Definition iterated_sampling {num} `{Numeric num} {label rng : Type}
    (E : Env num label rng)
    (model : sklearn_model num) (data : dataset num label)
    (imputation_module : imputation_module num rng) (loss : string)
    (batch_size n_samples m_samples : nat)
    (detect_convergence : bool) (convergence_threshold : num)
    (g : rng) : list string * res (list num) :=
  let model := wrap_model model in
  match check_imputation imputation_module m_samples with
  | Raise e => ([], Raise e)
  | Ok (impute, m_samples, stdout) =>
      let input_size := input_size data in
      let loss_fn := get_loss_np E loss in
      let total := estimate_total model loss_fn data batch_size in
      let '(scores, _) :=
        features_loop E model impute loss_fn input_size m_samples total
          detect_convergence convergence_threshold data batch_size n_samples
          (seq 0 input_size) [] g in
      (stdout, np_stack scores)
  end.

(** ** A tracker to run the estimators with *)

Section Welford.
Context {num : Type} `{Numeric num}.

(** Modelled from the spec: utils.ImportanceTracker is not among the
    sources.  Running count, mean and sum of squared deviations per
    feature, updated one observation at a time (Welford); [scores] is the
    mean and [var] the variance of the mean, the sample variance divided
    by the count. *)
Record welford := {
  w_count : nat;
  w_mean : list num;
  w_m2 : list num
}.

Definition welford_new : welford := {| w_count := 0; w_mean := []; w_m2 := [] |}.

Definition welford_observe (w : welford) (row : list num) : welford :=
  match w_count w with
  | 0 => {| w_count := 1; w_mean := row; w_m2 := map (fun _ => fzero) row |}
  | S _ =>
      let k := S (w_count w) in
      let d1 := vsub row (w_mean w) in
      let mean := vadd (w_mean w) (map (fun a => fdiv a (of_int k)) d1) in
      let d2 := vsub row mean in
      {| w_count := k; w_mean := mean; w_m2 := vadd (w_m2 w) (zip_with fmul d1 d2) |}
  end.

Definition welford_var (w : welford) : list num :=
  map (fun a => fdiv (fdiv a (of_int (w_count w))) (of_int (w_count w))) (w_m2 w).

Definition welford2 : ImportanceTracker (list (list num)) (list num) :=
  {| tracker := welford;
     tracker_new := welford_new;
     tracker_update := fun w rows => fold_left welford_observe rows w;
     tracker_scores := w_mean;
     tracker_var := welford_var |}.

(** The same tracker fed 1-D arrays: one scalar per example. *)
Definition welford1 : ImportanceTracker (list num) num :=
  {| tracker := welford;
     tracker_new := welford_new;
     tracker_update := fun w v => fold_left welford_observe (map (fun a => [a]) v) w;
     tracker_scores := fun w => hd fzero (w_mean w);
     tracker_var := fun w => hd fzero (welford_var w) |}.
End Welford.
Arguments welford num : clear implicits.

(** ** A concrete world: exact rationals, a pass-through model *)

Module Toy.
(** [a ** 0.5] on rationals: exact on squares, rounded down to a multiple
    of the denominator's inverse otherwise. *)
Definition Qc_sqrt (a : Qc) : Qc :=
  Q2Qc (Z.sqrt (Qnum a * Zpos (Qden a)) # Qden a).

Definition Qc_ltb (a b : Qc) : bool :=
  match (a ?= b)%Qc with
  | Lt => true
  | _ => false
  end.

#[global] Instance Qc_numeric : Numeric Qc :=
  {| fzero := Q2Qc 0;
     fadd := Qcplus;
     fsub := Qcminus;
     fmul := Qcmult;
     fdiv := Qcdiv;
     fsqrt := Qc_sqrt;
     flt := Qc_ltb;
     of_int := fun n => Q2Qc (inject_Z (Z.of_nat n)) |}.

(** The rational [a / b]. *)
Definition q (a : Z) (b : positive) : Qc := Q2Qc (a # b).

(** The generator state is a counter. *)
Definition rng : Type := nat.

(** [predict(x) = x[:, 0]]. *)
Definition first_feature : sklearn_model Qc :=
  {| classifier_mixin := false;
     predict := map (fun row => [nth 0 row (q 0 1)]);
     predict_proba := map (fun row => [nth 0 row (q 0 1)]) |}.

(** Squared error, unreduced: one loss per label. *)
Definition mse (pred : list (list Qc)) (y : list Qc) : list Qc :=
  imap (fun r t => let e := (nth 0 (nth r pred []) (q 0 1) - t)%Qc in (e * e)%Qc) y.

(** [S[r, c]] as a boolean; an entry the mask does not have counts as
    held out. *)
Definition known (S : list (list bool)) (r c : nat) : bool :=
  nth c (nth r S []) false.

(** Held-out entries become 0; the generator is not used. *)
Definition impute_zero : impute_fn Qc rng :=
  fun x S g =>
    (imap (fun r => imap (fun c v => if known S r c then v else q 0 1)) x, g).

(** Held-out entries of row [r] become the parity of the counter plus [r];
    the counter advances. *)
Definition impute_parity : impute_fn Qc rng :=
  fun x S g =>
    (imap (fun r => imap (fun c v => if known S r c then v
                                     else q (Z.of_nat ((g + r) mod 2)) 1)) x,
     g + 1).

(** Draw [n_samples] examples round-robin from the counter on, in batches
    of [batch_size]. *)
Definition round_robin (data : dataset Qc Qc) (batch_size n_samples : nat) (g : rng)
  : list (batch Qc Qc) * rng :=
  (map collate
     (chunks batch_size
        (omap (fun k => items data !! ((g + k) mod length (items data)))
              (seq 0 n_samples))),
   g + n_samples).

(** The identity permutation rotated by the counter. *)
Definition rotation (d : nat) (g : rng) : list nat * rng :=
  (rotate g (seq 0 d), g + 1).

(** A coalition without [ind]: column [j] of row [r] is in when
    [g + r + j] is odd. *)
Definition parity_subset (d n ind : nat) (g : rng) : list (list bool) * rng :=
  (map (fun r => map (fun j => if decide (j = ind) then false else Nat.odd (g + r + j))
                     (seq 0 d))
       (seq 0 n),
   g + 1).

Definition env : Env Qc Qc rng :=
  {| get_loss_np := fun _ => mse;
     random_loader := round_robin;
     randperm := rotation;
     sample_subset_feature := parity_subset;
     tracker2 := welford2;
     tracker1 := welford1 |}.

(** Three features; the label is the first one in all but the last
    example. *)
Definition data3 : dataset Qc Qc :=
  {| items := [ ([q 1 1; q 5 1; q 2 1], q 1 1);
                ([q 2 1; q 3 1; q 7 1], q 2 1);
                ([q 3 1; q 1 1; q 4 1], q 3 1);
                ([q 4 1; q 0 1; q 1 1], q 3 1) ];
     input_size := 3 |}.

(** A dataset on which the model is a little worse than the constant mean
    prediction: [estimate_total] is -1/200. *)
Definition data_flat : dataset Qc Qc :=
  {| items := [ ([q 0 1; q 5 1; q 2 1], q 0 1);
                ([q 1 1; q 3 1; q 7 1], q 49 100);
                ([q 0 1; q 1 1; q 4 1], q 0 1);
                ([q 1 1; q 0 1; q 1 1], q 49 100) ];
     input_size := 3 |}.
End Toy.

(** ** Notions the properties are stated with *)

Section Notions.
Context {num : Type} `{Numeric num} {label rng : Type}.

(** The mean over the replicate axis as the specification words it, for
    [m] replicates of [n] examples: row [r] of the result is the mean of
    the rows [r], [n + r], ..., [(m-1)*n + r] of the predictions. *)
Definition averaged_prediction (m n : nat) (y_hat : list (list num)) : list (list num) :=
  map (fun r =>
         map (fun s => fdiv s (of_int m))
             (sum_axis0 vadd [] (map (fun j => nth (j * n + r) y_hat []) (seq 0 m))))
      (seq 0 n).

(** The other order, which the estimators do not use: the loss of each
    replicate against the labels, averaged over the replicates. *)
Definition averaged_loss (loss_fn : list (list num) -> list label -> list num)
    (m : nat) (y_hat : list (list num)) (y : list label) : list num :=
  map (fun s => fdiv s (of_int m))
      (sum_axis0 vadd [] (map (fun block => loss_fn block y) (reshape m y_hat))).
End Notions.

(** ** Laws of exact arithmetic *)

(** What the algebraic identities below need of the numbers: addition is
    commutative and associative with unit 0, and subtraction telescopes.
    Rationals and reals meet these laws; rounded floats do not. *)
Class ExactArith (num : Type) `{Numeric num} := {
  fadd_comm : forall a b : num, fadd a b = fadd b a;
  fadd_assoc : forall a b c : num, fadd a (fadd b c) = fadd (fadd a b) c;
  fadd_0_l : forall a : num, fadd fzero a = a;
  fsub_diag : forall a : num, fsub a a = fzero;
  fsub_telescope : forall a b c : num, fadd (fsub a b) (fsub b c) = fsub a c
}.

(** ** Shapes in the reveal loop *)

(** The shapes the reveal loop keeps, for [m] replicates of [n] examples
    with [d] features: [S] is (m*n) x d, [scores] is n x d and [prev_loss]
    has one entry per example. *)
Definition shaped {num rng : Type} (d m n : nat) (st : reveal num rng) : Prop :=
  length (mask st) = m * n
  /\ Forall (fun row => length row = d) (mask st)
  /\ length (scores st) = n
  /\ Forall (fun row => length row = d) (scores st)
  /\ length (prev_loss st) = n.

(** ** The loops without their [break] *)

Section LoopNotions.
Context {num : Type} `{Numeric num} {label rng : Type}.
Variable E : Env num label rng.
Variable model : sklearn_model num.
Variable impute : impute_fn num rng.
Variable loss_fn : list (list num) -> list label -> list num.
Variable input_size m_samples : nat.
Variable total convergence_threshold : num.

(** The tracker and the generator once the batches [bs] have been folded
    in, one after the other, with nothing stopping the loop. *)
Definition fold_batches (bs : list (batch num label))
    (s : tracker (tracker2 E) * rng) : tracker (tracker2 E) * rng :=
  fold_left (fun s b => batch_update E model impute loss_fn input_size m_samples
                                     s.1 b s.2) bs s.

(** The test the permutation estimator makes after a batch:
    [sqrt(max variance) / total < threshold]. *)
Definition converged (tr : tracker (tracker2 E)) : res bool :=
  match conf_of E tr with
  | Ok conf => Ok (below_threshold total convergence_threshold conf)
  | Raise e => Raise e
  end.

(** The same two notions for one feature of the subset estimator. *)
Definition fold_minibatches (ind : nat) (bs : list (batch num label))
    (s : tracker (tracker1 E) * rng) : tracker (tracker1 E) * rng :=
  fold_left (fun s b =>
               let ev := subset_step E model impute loss_fn input_size m_samples
                                     ind b s.2 in
               (tracker_update (tracker1 E) s.1 (delta ev), gen_after ev)) bs s.

Definition feature_converged (tr : tracker (tracker1 E)) : bool :=
  flt (fdiv (fsqrt (tracker_var (tracker1 E) tr)) total) convergence_threshold.

Variable detect_convergence : bool.
Variable data : dataset num label.
Variable batch_size n_samples : nat.

(** The generator state when the loop of feature [ind] starts. *)
Fixpoint gen_at (ind : nat) (g : rng) : rng :=
  match ind with
  | 0 => g
  | S ind' =>
      let '(loader, g1) := random_loader E data batch_size n_samples (gen_at ind' g) in
      (feature_loop E model impute loss_fn input_size m_samples total
                    detect_convergence convergence_threshold
                    ind' loader (tracker_new (tracker1 E)) g1).2
  end.

(** The score of feature [ind]: its own loop, run on a new tracker. *)
Definition feature_score (ind : nat) (g : rng) : num :=
  let '(loader, g1) := random_loader E data batch_size n_samples (gen_at ind g) in
  tracker_scores (tracker1 E)
    (feature_loop E model impute loss_fn input_size m_samples total
                  detect_convergence convergence_threshold
                  ind loader (tracker_new (tracker1 E)) g1).1.
End LoopNotions.

(** ** Laws of an ordered field *)

(** What the sign argument about the convergence ratio needs: a square
    root is never negative, and a non-negative number divided by a
    negative one is below every positive number. *)
Class OrderedArith (num : Type) `{Numeric num} := {
  fsqrt_nonneg : forall a : num, flt (fsqrt a) fzero = false;
  fdiv_neg_below : forall c t thr : num,
    flt c fzero = false -> flt t fzero = true -> flt fzero thr = true ->
    flt (fdiv c t) thr = true
}.

(** ** Laws of a running mean *)

(** What turning the size-weighted running mean into a plain mean needs on
    top of [ExactArith]: 0 times anything is 0, and multiplying by a
    positive count undoes dividing by it. *)
Class MeanArith (num : Type) `{ExactArith num} := {
  fmul_0_l : forall a : num, fmul (of_int 0) a = fzero;
  fmul_fdiv : forall (n : nat) (a : num),
    0 < n -> fmul (of_int n) (fdiv a (of_int n)) = a
}.

(** * Properties *)

(** ** Batching *)

Lemma chunks_fuel_concat {A} (fuel b : nat) (l : list A) :
  0 < b -> length l <= fuel -> concat (chunks_fuel fuel b l) = l.
Proof.
  intros Hb. revert l. induction fuel as [|f IH]; intros l Hl.
  - destruct l; [reflexivity | simpl in Hl; lia].
  - destruct l as [|a l]; [reflexivity|].
    cbn [chunks_fuel concat]. rewrite IH.
    + apply take_drop.
    + rewrite length_drop. simpl in *. lia.
Qed.

Lemma chunks_fuel_nonempty {A} (fuel b : nat) (l : list A) :
  0 < b -> Forall (fun c => 0 < length c) (chunks_fuel fuel b l).
Proof.
  intros Hb. revert l. induction fuel as [|f IH]; intros l; [constructor|].
  destruct l as [|a l]; [constructor|].
  cbn [chunks_fuel]. constructor; [|apply IH].
  rewrite length_take. simpl. lia.
Qed.

(** Every item of the dataset is in exactly one batch, in order. *)
Lemma chunks_concat {A} (b : nat) (l : list A) : 0 < b -> concat (chunks b l) = l.
Proof. intros Hb. apply chunks_fuel_concat; [done | lia]. Qed.

Section EstimateTotalFacts.
Context {num : Type} `{Numeric num} {label : Type}.
Variable model : sklearn_model num.
Variable loss_fn : list (list num) -> list label -> list num.

Local Abbreviation pass1 := (fold_left (pass1_step model loss_fn)).
Local Abbreviation pass2 := (fold_left (pass2_step loss_fn)).

Lemma DataLoader_nonempty (data : dataset num label) (batch_size : nat) :
  0 < batch_size ->
  Forall (fun b : batch num label => 0 < length b.1) (DataLoader data batch_size).
Proof.
  intros Hb. unfold DataLoader. apply Forall_map.
  eapply Forall_impl; [apply chunks_fuel_nonempty, Hb|].
  intros c Hc. simpl. by rewrite length_map.
Qed.

(** The first loop computes its two running means side by side. *)
Lemma pass1_means (bs : list (batch num label)) (t : totals num) :
  mean_loss (pass1 bs t) =
    running_mean (N t) (mean_loss t)
      (map (fun b : batch num label =>
              (length b.1, np_mean (loss_fn (predict model b.1) b.2))) bs)
  /\ marginal_pred (pass1 bs t) =
    running_mean_nd (N t) (marginal_pred t)
      (map (fun b : batch num label => (length b.1, mean_axis0 (predict model b.1))) bs)
  /\ marginal_loss (pass1 bs t) = marginal_loss t.
Proof.
  revert t. induction bs as [|[x y] bs IH]; intros t; [done|].
  cbn [fold_left map running_mean running_mean_nd].
  destruct (IH (pass1_step model loss_fn t (x, y))) as (-> & -> & ->).
  done.
Qed.

Lemma pass2_means (bs : list (batch num label)) (t : totals num) :
  marginal_loss (pass2 bs t) =
    running_mean (N t) (marginal_loss t)
      (map (fun b : batch num label =>
              (length b.1,
               np_mean (loss_fn (nd_repeat (marginal_pred t) (length b.2)) b.2))) bs)
  /\ mean_loss (pass2 bs t) = mean_loss t
  /\ marginal_pred (pass2 bs t) = marginal_pred t.
Proof.
  revert t. induction bs as [|[x y] bs IH]; intros t; [done|].
  cbn [fold_left map running_mean].
  destruct (IH (pass2_step loss_fn t (x, y))) as (-> & -> & ->).
  done.
Qed.

(** After a batch the first pass holds an array, never the initial int:
    the [repeat] of the second pass is always called on an array. *)
Lemma pass1_marginal_is_row (bs : list (batch num label)) (t : totals num) :
  bs <> [] -> exists v, marginal_pred (pass1 bs t) = Row v.
Proof.
  assert (Hrow : forall bs t v, marginal_pred t = Row v ->
                   exists v', marginal_pred (pass1 bs t) = Row v').
  { clear. intros bs. induction bs as [|[x y] bs IH]; intros t v Hv; [by exists v|].
    cbn [fold_left]. eapply IH. cbn. unfold nd_weighted. rewrite Hv. reflexivity. }
  destruct bs as [|[x y] bs]; [done|]. intros _. cbn [fold_left].
  destruct (marginal_pred t) eqn:Ht; eapply Hrow; cbn; unfold nd_weighted;
    rewrite Ht; reflexivity.
Qed.

(** The divisors of the two loops. *)
Lemma pass1_divisors (bs : list (batch num label)) (t : totals num) :
  Forall (fun b : batch num label => 0 < length b.1) bs ->
  Forall (fun d => 0 < d) (divisors t) ->
  Forall (fun d => 0 < d) (divisors (pass1 bs t))
  /\ length (divisors (pass1 bs t)) = length (divisors t) + 2 * length bs.
Proof.
  intros Hbs. revert t. induction Hbs as [|[x y] bs Hb Hbs IH]; intros t Ht.
  - simpl. split; [done | lia].
  - cbn [fold_left]. destruct (IH (pass1_step model loss_fn t (x, y))) as [IH1 IH2].
    + cbn. apply Forall_app. split; [done|]. simpl in Hb.
      repeat constructor; lia.
    + split; [done|]. rewrite IH2. cbn. rewrite length_app. simpl. lia.
Qed.

Lemma pass2_divisors (bs : list (batch num label)) (t : totals num) :
  Forall (fun b : batch num label => 0 < length b.1) bs ->
  Forall (fun d => 0 < d) (divisors t) ->
  Forall (fun d => 0 < d) (divisors (pass2 bs t))
  /\ length (divisors (pass2 bs t)) = length (divisors t) + length bs.
Proof.
  intros Hbs. revert t. induction Hbs as [|[x y] bs Hb Hbs IH]; intros t Ht.
  - simpl. split; [done | lia].
  - cbn [fold_left]. destruct (IH (pass2_step loss_fn t (x, y))) as [IH1 IH2].
    + cbn. apply Forall_app. split; [done|]. simpl in Hb.
      repeat constructor; lia.
    + split; [done|]. rewrite IH2. cbn. rewrite length_app. simpl. lia.
Qed.


End EstimateTotalFacts.



(** ** Averaging over the replicates *)

Section ReplicateMean.
Context {num : Type} `{Numeric num}.

Lemma nth_zip_with_madd (a b : list (list num)) (r : nat) :
  r < length a -> r < length b ->
  nth r (madd a b) [] = vadd (nth r a []) (nth r b []).
Proof.
  intros Ha Hb. unfold madd. rewrite !nth_lookup, lookup_zip_with.
  destruct (lookup_lt_is_Some_2 a r Ha) as [u ->].
  destruct (lookup_lt_is_Some_2 b r Hb) as [v ->]. reflexivity.
Qed.

(** Adding matrices of [n] rows slice by slice adds them row by row. *)
Lemma fold_madd_rows (n : nat) (Bs : list (list (list num))) (B0 : list (list num)) :
  length B0 = n -> Forall (fun B => length B = n) Bs ->
  fold_left madd Bs B0 =
    map (fun r => fold_left vadd (map (fun B => nth r B []) Bs) (nth r B0 [])) (seq 0 n).
Proof.
  intros H0 HBs. revert B0 H0. induction HBs as [|B Bs HB HBs IH]; intros B0 H0.
  - simpl. apply list_eq. intros i. rewrite list_lookup_fmap.
    destruct (decide (i < n)) as [Hi|Hi].
    + rewrite lookup_seq_lt by done. simpl. rewrite nth_lookup.
      destruct (lookup_lt_is_Some_2 B0 i) as [u ->]; [lia | reflexivity].
    + rewrite lookup_seq_ge by lia. simpl. apply lookup_ge_None. lia.
  - cbn [fold_left map]. rewrite IH.
    + apply map_ext_in. intros r Hr. apply in_seq in Hr.
      rewrite nth_zip_with_madd by lia. reflexivity.
    + unfold madd. rewrite length_zip_with. lia.
Qed.

Lemma nth_block (n j r : nat) (rows : list (list num)) :
  r < n -> nth r (take n (drop (j * n) rows)) [] = nth (j * n + r) rows [].
Proof.
  intros Hr. rewrite !nth_lookup, lookup_take_lt, lookup_drop by done. reflexivity.
Qed.

Lemma length_block (m n j : nat) (rows : list (list num)) :
  length rows = m * n -> j < m -> length (take n (drop (j * n) rows)) = n.
Proof.
  intros Hl Hj. rewrite length_take, length_drop, Hl. nia.
Qed.

(** The two numpy lines compute the average the specification words, when
    the predictions are [m] replicates of [n] rows. *)
Lemma replicate_mean_averaged (m n : nat) (y_hat : list (list num)) :
  0 < m -> length y_hat = m * n ->
  replicate_mean m y_hat = averaged_prediction m n y_hat.
Proof.
  intros Hm Hl. unfold replicate_mean, mean_blocks, averaged_prediction, reshape.
  rewrite Hl. replace (m * n / m) with n by (rewrite Nat.mul_comm, Nat.div_mul; lia).
  rewrite length_map, length_seq.
  destruct m as [|m']; [lia|]. cbn [seq map sum_axis0].
  rewrite (fold_madd_rows n).
  - rewrite map_map. apply map_ext_in. intros r Hr. apply in_seq in Hr.
    f_equal. rewrite map_map. rewrite nth_block by lia. f_equal.
    apply map_ext_in. intros j Hj. apply nth_block. lia.
  - apply (length_block (S m')); [done | lia].
  - apply Forall_map, Forall_forall. intros j Hj. apply list_elem_of_In, in_seq in Hj.
    apply (length_block (S m')); [done | lia].
Qed.
End ReplicateMean.

(** ** Every loss is the loss of the averaged prediction *)

Lemma length_repeat_rows {A} (m : nat) (rows : list A) :
  length (repeat_rows m rows) = m * length rows.
Proof.
  unfold repeat_rows. induction m as [|m IH]; [reflexivity|].
  cbn [replicate concat]. rewrite length_app, IH. lia.
Qed.

Section LossOfAverage.
Context {num : Type} `{Numeric num} {label rng : Type}.
Variable E : Env num label rng.
Variable model : sklearn_model num.
Variable impute : impute_fn num rng.
Variable loss_fn : list (list num) -> list label -> list num.
Variable input_size m_samples : nat.

(** The Predictor and ImputationModule contracts on shapes: one output row
    per input row. *)
Hypothesis predict_rows : forall X, length (predict model X) = length X.
Hypothesis impute_rows : forall X S g, length (impute X S g).1 = length X.
Hypothesis m_samples_pos : 0 < m_samples.

Lemma masked_loss_averaged (n : nat) (x : list (list num)) (S : list (list bool))
    (y : list label) (g : rng) :
  length x = m_samples * n ->
  masked_loss model impute loss_fn m_samples x S y g =
    (loss_fn (averaged_prediction m_samples n (predict model (impute x S g).1)) y,
     (impute x S g).2).
Proof.
  intros Hx. unfold masked_loss. destruct (impute x S g) as [xi g'] eqn:Hi.
  cbn [fst snd]. rewrite (replicate_mean_averaged m_samples n); [done..|].
  rewrite predict_rows. pose proof (impute_rows x S g) as Hr.
  rewrite Hi in Hr. simpl in Hr. lia.
Qed.

End LossOfAverage.

(** The concrete world meets the shape contracts. *)
Lemma toy_predict_rows (X : list (list Qc)) :
  length (predict Toy.first_feature X) = length X.
Proof. apply length_map. Qed.

Lemma toy_impute_zero_rows (X : list (list Qc)) (S : list (list bool)) (g : Toy.rng) :
  length (Toy.impute_zero X S g).1 = length X.
Proof. apply length_imap. Qed.

Lemma toy_impute_parity_rows (X : list (list Qc)) (S : list (list bool)) (g : Toy.rng) :
  length (Toy.impute_parity X S g).1 = length X.
Proof. apply length_imap. Qed.


(** The order matters: with one example whose only feature is held out and
    two replicates, the loss of the averaged prediction is 1/4 while the
    average of the two replicate losses is 1/2. *)
Example loss_of_average_is_not_average_loss :
  let x := repeat_rows 2 [[Toy.q 7 1]] in
  let y := [Toy.q 0 1] in
  let y_hat := predict Toy.first_feature (Toy.impute_parity x [[false]; [false]] 0).1 in
  map this (masked_loss Toy.first_feature Toy.impute_parity Toy.mse 2
              x [[false]; [false]] y 0).1 = [(1 # 4)%Q]
  /\ map this (averaged_loss Toy.mse 2 y_hat y) = [(1 # 2)%Q].
Proof. split; vm_compute; reflexivity. Qed.

(** ** The reveal loop of the permutation estimator *)

Lemma Forall_repeat_rows {A} (P : A -> Prop) (m : nat) (rows : list A) :
  Forall P rows -> Forall P (repeat_rows m rows).
Proof.
  intros HP. unfold repeat_rows. induction m as [|m IH]; [constructor|].
  cbn [replicate concat]. by apply Forall_app.
Qed.

Lemma index_with_arange (d : nat) (p : list nat) :
  Forall (fun j => j < d) p -> index_with (seq 0 d) p = p.
Proof.
  intros Hp. unfold index_with. induction Hp as [|j p Hj Hp IH]; [reflexivity|].
  cbn [map]. rewrite IH. f_equal. by rewrite seq_nth.
Qed.

Lemma take_column_repeat (m i : nat) (ps : list (list nat)) :
  0 < m -> take (length ps) (column i (repeat_rows m ps)) = column i ps.
Proof.
  intros Hm. destruct m as [|m]; [lia|]. unfold repeat_rows, column.
  cbn [replicate concat]. rewrite map_app.
  rewrite take_app_le by (rewrite length_map; lia).
  apply take_ge. by rewrite length_map.
Qed.

(** What a row that is a permutation of the feature indices gives. *)
Lemma perm_row_facts (d : nat) (row : list nat) :
  row ≡ₚ seq 0 d ->
  length row = d /\ NoDup row /\ forall i, i < d -> nth i row 0 < d.
Proof.
  intros Hp. assert (Hl : length row = d) by (rewrite Hp; apply length_seq).
  split; [done|]. split.
  - rewrite Hp. apply NoDup_seq.
  - intros i Hi. assert (Hin : nth i row 0 ∈ row).
    { apply list_elem_of_In, nth_In. lia. }
    eapply elem_of_Permutation_proper in Hin; [|symmetry; exact Hp].
    apply elem_of_seq in Hin. lia.
Qed.

Section Sampling.
Context {num label rng : Type}.
Variable E : Env num label rng.

(** The contract of [torch.randperm]: a permutation of [0 .. d-1]. *)
Hypothesis randperm_perm : forall d g, (randperm E d g).1 ≡ₚ seq 0 d.

Lemma sample_permutations_perm (n d : nat) (g : rng) :
  length (sample_permutations E n d g).1 = n
  /\ Forall (fun row => row ≡ₚ seq 0 d) (sample_permutations E n d g).1.
Proof.
  revert g. induction n as [|n IH]; intros g; [by split|].
  cbn [sample_permutations]. pose proof (randperm_perm d g) as Hp.
  destruct (randperm E d g) as [p g1]. cbn [fst] in Hp.
  specialize (IH g1). destruct (sample_permutations E n d g1) as [rows g2].
  cbn [fst] in *. destruct IH as [IHl IHp]. split; [simpl; lia|].
  constructor; [|done]. rewrite index_with_arange; [done|].
  apply Forall_forall. intros j Hj. rewrite Hp in Hj. apply elem_of_seq in Hj. lia.
Qed.
End Sampling.

Section ArrayUpdates.
Context {num : Type} `{Numeric num}.

Lemma set_ones_length (S : list (list bool)) (inds : list nat) :
  length inds = length S -> length (set_ones S inds) = length S.
Proof. intros Hl. unfold set_ones. rewrite length_zip_with. lia. Qed.

Lemma set_ones_cols (d : nat) (S : list (list bool)) (inds : list nat) :
  Forall (fun row => length row = d) S ->
  Forall (fun row => length row = d) (set_ones S inds).
Proof.
  intros HS. unfold set_ones. revert inds.
  induction HS as [|row S Hrow HS IH]; intros [|j inds]; cbn; constructor; auto.
  by rewrite length_insert.
Qed.

Lemma set_ones_lookup (S : list (list bool)) (inds : list nat) (r : nat) row j :
  S !! r = Some row -> inds !! r = Some j ->
  set_ones S inds !! r = Some (<[j:=true]> row).
Proof. intros HS Hj. unfold set_ones. by rewrite lookup_zip_with, HS, Hj. Qed.

Lemma assign_length (sc : list (list num)) (inds : list nat) (delta : list num) :
  length sc <= length inds -> length sc <= length delta ->
  length (assign sc inds delta) = length sc.
Proof. intros Hi Hd. unfold assign. rewrite !length_zip_with. lia. Qed.

Lemma assign_cols (d : nat) (sc : list (list num)) (inds : list nat) (delta : list num) :
  Forall (fun row => length row = d) sc ->
  Forall (fun row => length row = d) (assign sc inds delta).
Proof.
  intros HS. unfold assign. generalize (zip inds delta).
  induction HS as [|row S Hrow HS IH]; intros [|j l]; cbn; constructor; auto.
  by rewrite length_insert.
Qed.

Lemma assign_lookup (sc : list (list num)) (inds : list nat) (delta : list num)
    (r : nat) row j v :
  sc !! r = Some row -> inds !! r = Some j -> delta !! r = Some v ->
  assign sc inds delta !! r = Some (<[j:=v]> row).
Proof.
  intros HS Hj Hv. unfold assign.
  by rewrite lookup_zip_with, HS, lookup_zip_with, Hj, Hv.
Qed.

Lemma vsub_lookup (u v : list num) (r : nat) a b :
  u !! r = Some a -> v !! r = Some b -> vsub u v !! r = Some (fsub a b).
Proof. intros Hu Hv. unfold vsub. by rewrite lookup_zip_with, Hu, Hv. Qed.
End ArrayUpdates.

Section Sums.
Context {num : Type} `{ExactArith num}.

Lemma fold_fadd_acc (l : list num) (a : num) :
  fold_left fadd l a = fadd a (np_sum l).
Proof.
  unfold np_sum. revert a. induction l as [|b l IH]; intros a.
  - simpl. by rewrite fadd_comm, fadd_0_l.
  - cbn [fold_left]. rewrite IH, (IH (fadd fzero b)), fadd_0_l. apply eq_sym, fadd_assoc.
Qed.

Lemma np_sum_cons (b : num) (l : list num) : np_sum (b :: l) = fadd b (np_sum l).
Proof. unfold np_sum at 1. cbn [fold_left]. by rewrite fold_fadd_acc, fadd_0_l. Qed.

Lemma np_sum_zeros (d : nat) : np_sum (replicate d fzero) = fzero.
Proof.
  induction d as [|d IH]; [reflexivity|].
  cbn [replicate]. by rewrite np_sum_cons, IH, fadd_0_l.
Qed.

(** Writing [v] over a 0 adds [v] to the sum of the row. *)
Lemma np_sum_insert_zero (l : list num) (j : nat) (v : num) :
  l !! j = Some fzero -> np_sum (<[j:=v]> l) = fadd (np_sum l) v.
Proof.
  revert j. induction l as [|b l IH]; intros [|j] Hj; try done.
  - cbn in Hj. injection Hj as ->. cbn [insert list_insert].
    by rewrite !np_sum_cons, fadd_0_l, fadd_comm.
  - cbn in Hj. cbn [insert list_insert]. fold (insert (M:=list num) j v l).
    by rewrite !np_sum_cons, IH, fadd_assoc.
Qed.
End Sums.

Section RevealLoop.
Context {num : Type} `{Numeric num} {label rng : Type}.
Variable model : sklearn_model num.
Variable impute : impute_fn num rng.
Variable loss_fn : list (list num) -> list label -> list num.
Variable d m : nat.
Variable x : list (list num).
Variable y : list label.
Variable n : nat.
Variable perms : list (list nat).

(** The LossFunction contract: one loss per label. *)
Hypothesis loss_rows : forall P yy, length (loss_fn P yy) = length yy.
Hypothesis y_len : length y = n.
Hypothesis perms_len : length perms = m * n.
Hypothesis perms_perm : Forall (fun row => row ≡ₚ seq 0 d) perms.
Hypothesis m_pos : 0 < m.

Local Abbreviation step := (reveal_step model impute loss_fn m x y n perms).
Local Abbreviation upto := (reveal_upto model impute loss_fn m x y n perms).
Local Abbreviation feature r i := (nth i (nth r perms []) 0).

Lemma masked_loss_length (S : list (list bool)) (g : rng) :
  length (masked_loss model impute loss_fn m x S y g).1 = n.
Proof.
  unfold masked_loss. destruct (impute x S g) as [xi g']. cbn [fst].
  by rewrite loss_rows.
Qed.

Lemma step_mask (st : reveal num rng) (i : nat) :
  mask (step st i) = set_ones (mask st) (column i perms).
Proof. unfold reveal_step. by destruct (masked_loss _ _ _ _ _ _ _ _). Qed.

Lemma step_loss (st : reveal num rng) (i : nat) :
  (prev_loss (step st i), gen (step st i)) =
    masked_loss model impute loss_fn m x (mask (step st i)) y (gen st).
Proof.
  rewrite step_mask. unfold reveal_step.
  by destruct (masked_loss _ _ _ _ _ _ _ _).
Qed.

Lemma step_scores (st : reveal num rng) (i : nat) :
  scores (step st i) =
    assign (scores st) (take n (column i perms))
           (vsub (prev_loss st) (prev_loss (step st i))).
Proof. unfold reveal_step. by destruct (masked_loss _ _ _ _ _ _ _ _). Qed.

Lemma column_length (i : nat) : length (column i perms) = m * n.
Proof. unfold column. by rewrite length_map. Qed.

Lemma column_lookup (i r : nat) :
  r < m * n -> column i perms !! r = Some (feature r i).
Proof.
  intros Hr. unfold column. rewrite list_lookup_fmap.
  destruct (lookup_lt_is_Some_2 perms r) as [row Hrow]; [lia|].
  rewrite Hrow. cbn. f_equal. by rewrite (nth_lookup perms), Hrow.
Qed.

Lemma feature_lt (r i : nat) : r < m * n -> i < d -> feature r i < d.
Proof.
  intros Hr Hi. destruct (lookup_lt_is_Some_2 perms r) as [row Hrow]; [lia|].
  rewrite (nth_lookup perms), Hrow. cbn.
  pose proof (Forall_lookup_1 _ perms _ _ perms_perm Hrow) as Hp. cbn in Hp.
  destruct (perm_row_facts d row Hp) as (_ & _ & Hlt). by apply Hlt.
Qed.

Lemma feature_inj (r i j : nat) :
  r < m * n -> i < d -> j < d -> feature r i = feature r j -> i = j.
Proof.
  intros Hr Hi Hj. destruct (lookup_lt_is_Some_2 perms r) as [row Hrow]; [lia|].
  rewrite (nth_lookup perms), Hrow. cbn.
  pose proof (Forall_lookup_1 _ perms _ _ perms_perm Hrow) as Hp. cbn in Hp.
  destruct (perm_row_facts d row Hp) as (Hl & Hnd & _).
  apply (proj1 (NoDup_nth row 0)); [by apply NoDup_ListNoDup | lia | lia].
Qed.

Lemma step_shaped (st : reveal num rng) (i : nat) :
  shaped d m n st -> shaped d m n (step st i).
Proof.
  intros (Hm1 & Hm2 & Hs1 & Hs2 & Hl).
  assert (Hl' : length (prev_loss (step st i)) = n).
  { pose proof (f_equal fst (step_loss st i)) as Hloss. cbn [fst] in Hloss.
    rewrite Hloss. apply masked_loss_length. }
  unfold shaped. rewrite step_mask, step_scores. split_and!.
  - rewrite set_ones_length; [done|]. by rewrite column_length.
  - by apply set_ones_cols.
  - rewrite assign_length; [done|..].
    + rewrite length_take, column_length. nia.
    + unfold vsub. rewrite length_zip_with. lia.
  - by apply assign_cols.
  - done.
Qed.

Lemma upto_S (st0 : reveal num rng) (k : nat) : upto st0 (S k) = step (upto st0 k) k.
Proof. unfold reveal_upto. by rewrite seq_S, fold_left_app. Qed.

Lemma upto_shaped (st0 : reveal num rng) (k : nat) :
  shaped d m n st0 -> shaped d m n (upto st0 k).
Proof.
  intros H0. induction k as [|k IH]; [done|]. rewrite upto_S. by apply step_shaped.
Qed.

(** After the step, [S] holds a 1 at the feature revealed in each row. *)
Lemma step_mask_set (st : reveal num rng) (i r : nat) :
  shaped d m n st -> i < d -> r < m * n ->
  nth (feature r i) (nth r (mask (step st i)) []) false = true.
Proof.
  intros (Hm1 & Hm2 & _) Hi Hr. rewrite step_mask.
  destruct (lookup_lt_is_Some_2 (mask st) r) as [row Hrow]; [lia|].
  rewrite (nth_lookup (set_ones _ _)).
  rewrite (set_ones_lookup _ _ r row (feature r i) Hrow (column_lookup i r Hr)).
  cbn. rewrite nth_lookup, list_lookup_insert_eq; [done|].
  rewrite (Forall_lookup_1 _ _ _ _ Hm2 Hrow). by apply feature_lt.
Qed.

(** The row of [scores] of example [r] after the step: the old row with
    [prev_loss - loss] written at the feature just revealed. *)
Lemma step_score_row (st : reveal num rng) (i r : nat) :
  shaped d m n st -> r < n ->
  nth r (scores (step st i)) [] =
    <[feature r i := fsub (nth r (prev_loss st) fzero)
                          (nth r (prev_loss (step st i)) fzero)]>
      (nth r (scores st) []).
Proof.
  intros Hst Hr. pose proof (step_shaped st i Hst) as (_ & _ & _ & _ & Hl').
  destruct Hst as (_ & _ & Hs1 & _ & Hl).
  destruct (lookup_lt_is_Some_2 (scores st) r) as [row Hrow]; [lia|].
  destruct (lookup_lt_is_Some_2 (prev_loss st) r) as [a Ha]; [lia|].
  destruct (lookup_lt_is_Some_2 (prev_loss (step st i)) r) as [b Hb]; [lia|].
  rewrite step_scores. rewrite !(nth_lookup (prev_loss _)), Ha, Hb.
  rewrite (nth_lookup (scores st)), Hrow, nth_lookup. cbn.
  erewrite assign_lookup; [done | done | | by apply vsub_lookup].
  rewrite lookup_take_lt by done. apply column_lookup. nia.
Qed.

(** *** The whole loop *)

Variable st0 : reveal num rng.
Hypothesis st0_shaped : shaped d m n st0.

Lemma step_mask_mono (st : reveal num rng) (i r j : nat) :
  r < m * n ->
  nth j (nth r (mask st) []) false = true ->
  nth j (nth r (mask (step st i)) []) false = true.
Proof.
  intros Hr. rewrite step_mask. rewrite !(nth_lookup _ r). unfold set_ones.
  rewrite lookup_zip_with. destruct (mask st !! r) as [row|]; [|done]. cbn.
  rewrite (column_lookup i r Hr). cbn. set (c := feature r i).
  rewrite !nth_lookup. destruct (decide (c = j)) as [->|Hne].
  - destruct (row !! j) eqn:Hj; [|done]. intros _.
    rewrite list_lookup_insert_eq; [done|]. by eapply lookup_lt_Some.
  - by rewrite list_lookup_insert_ne.
Qed.

(** Once position [i] has been handled, example [r] has its [i]-th
    permuted feature revealed for good. *)
Lemma upto_mask_revealed (k i r : nat) :
  i < k -> k <= d -> r < m * n ->
  nth (feature r i) (nth r (mask (upto st0 k)) []) false = true.
Proof.
  induction k as [|k IH]; intros Hi Hk Hr; [lia|]. rewrite upto_S.
  destruct (decide (i = k)) as [->|Hne].
  - apply step_mask_set; [by apply upto_shaped | lia | done].
  - apply step_mask_mono; [done|]. apply IH; lia.
Qed.

(** After the last position every feature of every row is revealed. *)
Lemma upto_mask_full (r j : nat) :
  r < m * n -> j < d -> nth j (nth r (mask (upto st0 d)) []) false = true.
Proof.
  intros Hr Hj. destruct (lookup_lt_is_Some_2 perms r) as [row Hrow]; [lia|].
  pose proof (Forall_lookup_1 _ perms _ _ perms_perm Hrow) as Hp. cbn in Hp.
  assert (Hin : j ∈ row).
  { eapply elem_of_Permutation_proper; [exact Hp|]. apply elem_of_seq. lia. }
  apply list_elem_of_lookup in Hin as [i Hi].
  assert (Hid : i < d).
  { apply lookup_lt_Some in Hi. destruct (perm_row_facts d row Hp) as [Hl _]. lia. }
  replace j with (feature r i); [by apply upto_mask_revealed|].
  rewrite (nth_lookup perms), Hrow. cbn. by rewrite nth_lookup, Hi.
Qed.

Hypothesis st0_scores : scores st0 = replicate n (replicate d fzero).

(** A feature not revealed yet still has score 0. *)
Lemma upto_unrevealed_zero (k r i : nat) :
  r < n -> k <= i -> i < d ->
  nth r (scores (upto st0 k)) [] !! feature r i = Some fzero.
Proof.
  intros Hr. assert (Hrm : r < m * n) by nia.
  induction k as [|k IH]; intros Hk Hi.
  - unfold reveal_upto. cbn [seq fold_left].
    rewrite st0_scores, (nth_lookup (replicate _ _)), lookup_replicate_2 by done.
    cbn [from_option id]. apply lookup_replicate_2. by apply feature_lt.
  - rewrite upto_S, step_score_row by (done || by apply upto_shaped).
    rewrite list_lookup_insert_ne; [apply IH; lia|].
    intros Heq. apply feature_inj in Heq; lia.
Qed.

(** The score written at position [i] stays: later positions write
    elsewhere. *)
Lemma upto_score_kept (k r i : nat) :
  r < n -> i < k -> k <= d ->
  nth r (scores (upto st0 k)) [] !! feature r i =
    Some (fsub (nth r (prev_loss (upto st0 i)) fzero)
               (nth r (prev_loss (upto st0 (S i))) fzero)).
Proof.
  intros Hr. assert (Hrm : r < m * n) by nia.
  induction k as [|k IH]; intros Hi Hk; [lia|].
  rewrite (upto_S st0 k), step_score_row by (done || by apply upto_shaped).
  destruct (decide (i = k)) as [->|Hne].
  - rewrite <- (upto_S st0 k). apply list_lookup_insert_eq.
    eapply lookup_lt_Some, (upto_unrevealed_zero k r k); lia.
  - rewrite list_lookup_insert_ne; [apply IH; lia|].
    intros Heq. apply feature_inj in Heq; lia.
Qed.

Context `{!ExactArith num}.

(** The scores of an example sum to the loss removed so far. *)
Lemma upto_sum (k r : nat) :
  r < n -> k <= d ->
  np_sum (nth r (scores (upto st0 k)) []) =
    fsub (nth r (prev_loss st0) fzero) (nth r (prev_loss (upto st0 k)) fzero).
Proof.
  intros Hr. induction k as [|k IH]; intros Hk.
  - unfold reveal_upto. cbn [seq fold_left].
    rewrite st0_scores, (nth_lookup (replicate _ _)), lookup_replicate_2 by done.
    cbn [from_option id]. by rewrite np_sum_zeros, fsub_diag.
  - rewrite upto_S, step_score_row by (done || by apply upto_shaped).
    rewrite np_sum_insert_zero by (apply upto_unrevealed_zero; lia).
    rewrite IH by lia. apply fsub_telescope.
Qed.
End RevealLoop.

(** ** One batch of the permutation estimator *)

Section PermutationBatch.
Context {num : Type} `{Numeric num} {label rng : Type}.
Variable E : Env num label rng.
Variable model : sklearn_model num.
Variable impute : impute_fn num rng.
Variable loss_fn : list (list num) -> list label -> list num.
Variable d m : nat.

Hypothesis randperm_perm : forall k g, (randperm E k g).1 ≡ₚ seq 0 k.
Hypothesis loss_rows : forall P yy, length (loss_fn P yy) = length yy.
Hypothesis m_pos : 0 < m.

(** The state the reveal loop starts from. *)
Lemma reveal_init_facts (b : batch num label) (g : rng) xr perms st0 :
  length b.1 = length b.2 ->
  reveal_init E model impute loss_fn d m b g = (xr, perms, st0) ->
  let n := length b.1 in
  xr = repeat_rows m b.1
  /\ perms = repeat_rows m (sample_permutations E n d g).1
  /\ length perms = m * n
  /\ Forall (fun row => row ≡ₚ seq 0 d) perms
  /\ shaped d m n st0
  /\ scores st0 = replicate n (replicate d fzero)
  /\ mask st0 = repeat_rows m (replicate n (replicate d false))
  /\ (prev_loss st0, gen st0) =
       masked_loss model impute loss_fn m xr (mask st0) b.2
                   (sample_permutations E n d g).2.
Proof.
  destruct b as [bx by_]. cbn [fst snd]. intros Hxy. unfold reveal_init.
  destruct (sample_permutations_perm E randperm_perm (length bx) d g) as [Hl Hp].
  destruct (sample_permutations E (length bx) d g) as [ps g1]. cbn [fst snd] in *.
  pose proof (masked_loss_length model impute loss_fn m (repeat_rows m bx) by_
                (length bx) loss_rows (eq_sym Hxy)
                (repeat_rows m (replicate (length bx) (replicate d false))) g1) as Hml.
  destruct (masked_loss _ _ _ _ _ _ _ _) as [l0 g2] eqn:Hloss. cbn [fst] in Hml.
  intros Heq. inversion Heq; subst; clear Heq. cbn [mask prev_loss scores gen].
  split_and!; try done.
  - by rewrite length_repeat_rows, Hl.
  - by apply Forall_repeat_rows.
  - unfold shaped. cbn [mask prev_loss scores gen]. split_and!.
    + by rewrite length_repeat_rows, length_replicate.
    + apply Forall_repeat_rows, Forall_replicate. apply length_replicate.
    + apply length_replicate.
    + apply Forall_replicate, length_replicate.
    + done.
Qed.


End PermutationBatch.

(** ** The concrete world meets the contracts *)

#[global] Instance Qc_exact : ExactArith Qc.
Proof.
  split; intros; cbn; ring.
Qed.

Lemma toy_randperm_perm (k : nat) (g : Toy.rng) : (randperm Toy.env k g).1 ≡ₚ seq 0 k.
Proof.
  cbn. unfold rotate. rewrite Permutation_app_comm. by rewrite take_drop.
Qed.

Lemma toy_mse_rows (P : list (list Qc)) (yy : list Qc) :
  length (Toy.mse P yy) = length yy.
Proof. apply length_imap. Qed.

Lemma triple_eta {A B C} (p : A * B * C) : p = (p.1.1, p.1.2, p.2).
Proof. by destruct p as [[? ?] ?]. Qed.

(** On the first two examples of [Toy.data3], two replicates: the rows of
    scores are [1, 0, 0] and [1, -3, 3], and both sum to the baseline loss 1
    minus the final loss 0. *)
Example toy_reveal_loop :
  let b : batch Qc Qc := collate (take 2 (items Toy.data3)) in
  let st := reveal_all Toy.env Toy.first_feature Toy.impute_parity Toy.mse 3 2 b 0 in
  map (map this) (scores st) = [[1; 0; 0]; [1; -3; 3]]%Q
  /\ map this (prev_loss st) = [0; 0]%Q.
Proof. split; vm_compute; reflexivity. Qed.



(** ** The outer loop of the permutation estimator *)

Section SamplingLoop.
Context {num : Type} `{Numeric num} {label rng : Type}.
Variable E : Env num label rng.
Variable model : sklearn_model num.
Variable impute : impute_fn num rng.
Variable loss_fn : list (list num) -> list label -> list num.
Variable d m : nat.
Variable total thr : num.

Local Abbreviation loop detect :=
  (sampling_loop E model impute loss_fn d m total detect thr).
Local Abbreviation after bs k s :=
  (fold_batches E model impute loss_fn d m (take k bs) s).
Local Abbreviation test tr := (converged E total thr tr).

Lemma after_S b (bs : list (batch num label)) (k : nat) tr g :
  after (b :: bs) (S k) (tr, g) =
    after bs k (batch_update E model impute loss_fn d m tr b g).
Proof. reflexivity. Qed.

Lemma after_0 (bs : list (batch num label)) s : after bs 0 s = s.
Proof. reflexivity. Qed.

(** With detection on, the loop returns at the first batch whose test
    succeeds. *)
Lemma loop_first_success (bs : list (batch num label)) (k : nat) tr g :
  k < length bs ->
  (forall j, j < k -> test (after bs (S j) (tr, g)).1 = Ok false) ->
  test (after bs (S k) (tr, g)).1 = Ok true ->
  loop true bs tr g = Ok (after bs (S k) (tr, g)).
Proof.
  revert k tr g. induction bs as [|b bs IH]; intros k tr g Hk Hbefore Hat.
  - simpl in Hk. lia.
  - cbn [sampling_loop].
    destruct (batch_update E model impute loss_fn d m tr b g) as [tr1 g1] eqn:Hb.
    destruct k as [|k].
    + rewrite after_S, Hb, after_0 in Hat |- *. cbn [fst] in Hat.
      unfold converged in Hat.
      destruct (conf_of E tr1) as [conf|e]; [|done].
      injection Hat as ->. reflexivity.
    + pose proof (Hbefore 0 ltac:(lia)) as H0. rewrite after_S, Hb, after_0 in H0.
      cbn [fst] in H0. unfold converged in H0.
      destruct (conf_of E tr1) as [conf|e]; [|done].
      injection H0 as ->. cbn [andb]. rewrite (after_S b bs (S k)), Hb.
      apply IH; [simpl in Hk; lia | | by rewrite after_S, Hb in Hat].
      intros j Hj. specialize (Hbefore (S j) ltac:(lia)).
      by rewrite after_S, Hb in Hbefore.
Qed.

(** A loop that never breaks folds every batch: with detection on and no
    test succeeding, or with detection off and whatever the tests say. *)
Lemma loop_no_break (detect : bool) (bs : list (batch num label)) tr g :
  (forall j, j < length bs ->
     exists c, test (after bs (S j) (tr, g)).1 = Ok c /\ (detect = true -> c = false)) ->
  loop detect bs tr g = Ok (after bs (length bs) (tr, g)).
Proof.
  revert tr g. induction bs as [|b bs IH]; intros tr g Hall; [reflexivity|].
  cbn [sampling_loop length].
  destruct (Hall 0 ltac:(simpl; lia)) as (c & Hc & Hd).
  rewrite after_S in Hc |- *.
  destruct (batch_update E model impute loss_fn d m tr b g) as [tr1 g1] eqn:Hb.
  rewrite after_0 in Hc. cbn [fst] in Hc. unfold converged in Hc.
  destruct (conf_of E tr1) as [conf|e]; [|done]. injection Hc as Hc.
  assert (Hgo : detect && below_threshold total thr conf = false).
  { destruct detect; [|done]. cbn. rewrite Hc. by apply Hd. }
  rewrite Hgo. apply IH. intros j Hj.
  specialize (Hall (S j) ltac:(simpl; lia)). by rewrite after_S, Hb in Hall.
Qed.

End SamplingLoop.


(** ** One minibatch of the subset estimator *)

Section SubsetStep.
Context {num : Type} `{Numeric num} {label rng : Type}.
Variable E : Env num label rng.
Variable model : sklearn_model num.
Variable impute : impute_fn num rng.
Variable loss_fn : list (list num) -> list label -> list num.
Variable d m : nat.

(** The contract of [utils.sample_subset_feature], which is not among the
    sources: every row of the mask has a 0 in column [ind]. *)
Hypothesis subset_excludes : forall n ind g,
  ind < d ->
  Forall (fun row => row !! ind = Some false) (sample_subset_feature E d n ind g).1.

Lemma set_column_other (ind : nat) (S : list (list bool)) (r c : nat) :
  c <> ind ->
  nth c (nth r (set_column ind S) []) false = nth c (nth r S []) false.
Proof.
  intros Hc. unfold set_column. rewrite !(nth_lookup _ r), list_lookup_fmap.
  destruct (S !! r) as [row|]; [|done]. cbn.
  by rewrite !nth_lookup, list_lookup_insert_ne.
Qed.

Lemma set_column_set (ind : nat) (S : list (list bool)) :
  Forall (fun row => ind < length row) S ->
  Forall (fun row => row !! ind = Some true) (set_column ind S).
Proof.
  intros HS. unfold set_column. apply Forall_fmap.
  eapply Forall_impl; [exact HS|]. intros row Hrow. cbn.
  by apply list_lookup_insert_eq.
Qed.

(** C3.  For a feature [ind] and a minibatch, the first loss is evaluated
    under a mask whose column [ind] is 0 in every row; the second under
    the same mask with column [ind] set to 1 and every other column as it
    was; both evaluations use the same replicated input and the same
    labels; and the array folded into the feature's tracker is the first
    loss minus the second, example by example. *)
Theorem subset_step_toggles_one_column (ind : nat) (b : batch num label) (g : rng) :
  ind < d ->
  let ev := subset_step E model impute loss_fn d m ind b g in
  let g1 := (sample_subset_feature E d (length b.1) ind g).2 in
  let first := masked_loss model impute loss_fn m (x_rep ev) (S_discluded ev) b.2 g1 in
  let second := masked_loss model impute loss_fn m (x_rep ev) (S_included ev) b.2 first.2 in
  Forall (fun row => row !! ind = Some false) (S_discluded ev)
  /\ Forall (fun row => row !! ind = Some true) (S_included ev)
  /\ length (S_included ev) = length (S_discluded ev)
  /\ (forall r c, c <> ind ->
        nth c (nth r (S_included ev) []) false = nth c (nth r (S_discluded ev) []) false)
  /\ x_rep ev = repeat_rows m b.1
  /\ loss_discluded ev = first.1
  /\ (loss_included ev, gen_after ev) = second
  /\ delta ev = vsub (loss_discluded ev) (loss_included ev)
  /\ (forall r a c, loss_discluded ev !! r = Some a -> loss_included ev !! r = Some c ->
        delta ev !! r = Some (fsub a c))
  /\ (forall total detect thr rest tr,
        let tr1 := tracker_update (tracker1 E) tr (delta ev) in
        feature_loop E model impute loss_fn d m total detect thr ind (b :: rest) tr g =
          if detect && feature_converged E total thr tr1 then (tr1, gen_after ev)
          else feature_loop E model impute loss_fn d m total detect thr ind rest tr1
                            (gen_after ev)).
Proof.
  intros Hind. destruct b as [x y]. cbn [fst snd].
  pose proof (subset_excludes (length x) ind g Hind) as Hex.
  unfold subset_step.
  destruct (sample_subset_feature E d (length x) ind g) as [S0 g1] eqn:HS.
  cbn [fst snd] in *.
  destruct (masked_loss model impute loss_fn m (repeat_rows m x) (repeat_rows m S0) y g1)
    as [ld g2] eqn:H1.
  destruct (masked_loss model impute loss_fn m (repeat_rows m x)
              (set_column ind (repeat_rows m S0)) y g2) as [li g3] eqn:H2.
  cbn [x_rep S_discluded S_included loss_discluded loss_included delta gen_after].
  rewrite H1. cbn [fst snd]. rewrite H2.
  assert (Hrep : Forall (fun row => row !! ind = Some false) (repeat_rows m S0))
    by by apply Forall_repeat_rows.
  split_and!; try done.
  - apply set_column_set. eapply Forall_impl; [exact Hrep|].
    intros row Hrow. cbn in Hrow. by eapply lookup_lt_Some.
  - unfold set_column. by rewrite length_map.
  - intros r c Hc. by apply set_column_other.
  - intros r a c Ha Hc. by apply vsub_lookup.
  - intros total detect thr rest tr. cbn [feature_loop]. unfold subset_step.
    rewrite HS, H1, H2. reflexivity.
Qed.
End SubsetStep.

Lemma toy_subset_excludes (d n ind : nat) (g : Toy.rng) :
  ind < d ->
  Forall (fun row => row !! ind = Some false) (sample_subset_feature Toy.env d n ind g).1.
Proof.
  intros Hind. cbn. apply Forall_fmap, Forall_forall. intros r _. cbn.
  rewrite list_lookup_fmap, lookup_seq_lt by done. cbn.
  by rewrite decide_True.
Qed.

(** C3, witness: feature 1 on the first two examples of [Toy.data3]. *)
Lemma subset_step_toggles_one_column_witness :
  (forall n ind g, ind < 3 ->
     Forall (fun row => row !! ind = Some false)
            (sample_subset_feature Toy.env 3 n ind g).1)
  /\ 1 < 3
  /\ let b : batch Qc Qc := collate (take 2 (items Toy.data3)) in
     let ev := subset_step Toy.env Toy.first_feature Toy.impute_parity Toy.mse 3 2 1 b 0 in
     Forall (fun row => row !! 1 = Some false) (S_discluded ev)
     /\ Forall (fun row => row !! 1 = Some true) (S_included ev)
     /\ delta ev = vsub (loss_discluded ev) (loss_included ev).
Proof.
  split; [intros n ind g; apply toy_subset_excludes|]. split; [lia|].
  intros b ev.
  destruct (subset_step_toggles_one_column Toy.env Toy.first_feature Toy.impute_parity
              Toy.mse 3 2 (fun n ind g => toy_subset_excludes 3 n ind g) 1 b 0 ltac:(lia))
    as (H0 & H1 & _ & _ & _ & _ & _ & Hd & _).
  exact (conj H0 (conj H1 Hd)).
Defined.

(** The masks of that minibatch: column 1 goes from 0 to 1, the other
    columns stay. *)
Example toy_subset_masks :
  let b : batch Qc Qc := collate (take 2 (items Toy.data3)) in
  let ev := subset_step Toy.env Toy.first_feature Toy.impute_parity Toy.mse 3 2 1 b 0 in
  S_discluded ev = [[false; false; false]; [true; false; true];
                    [false; false; false]; [true; false; true]]
  /\ S_included ev = [[false; true; false]; [true; true; true];
                      [false; true; false]; [true; true; true]].
Proof. split; vm_compute; reflexivity. Qed.

(** ** The feature loop of the subset estimator *)

Section FeaturesLoop.
Context {num : Type} `{Numeric num} {label rng : Type}.
Variable E : Env num label rng.
Variable model : sklearn_model num.
Variable impute : impute_fn num rng.
Variable loss_fn : list (list num) -> list label -> list num.
Variable d m : nat.
Variable total thr : num.
Variable detect : bool.
Variable data : dataset num label.
Variable batch_size n_samples : nat.

Local Abbreviation floop :=
  (feature_loop E model impute loss_fn d m total detect thr).
Local Abbreviation score_of :=
  (feature_score E model impute loss_fn d m total thr detect data batch_size n_samples).
Local Abbreviation state_at :=
  (gen_at E model impute loss_fn d m total thr detect data batch_size n_samples).

(** Feature after feature, the loop appends one score, each from a loop
    of its own that starts with a new tracker. *)
Lemma features_loop_scores (a k : nat) (scores : list num) (g : rng) :
  features_loop E model impute loss_fn d m total detect thr data batch_size n_samples
                (seq a k) scores (state_at a g) =
    (scores ++ map (fun ind => score_of ind g) (seq a k), state_at (a + k) g).
Proof.
  revert a scores. induction k as [|k IH]; intros a scores.
  - cbn. by rewrite app_nil_r, Nat.add_0_r.
  - cbn [seq features_loop map].
    assert (Hs : score_of a g =
                 tracker_scores (tracker1 E)
                   (floop a (random_loader E data batch_size n_samples (state_at a g)).1
                          (tracker_new (tracker1 E))
                          (random_loader E data batch_size n_samples (state_at a g)).2).1).
    { unfold feature_score. by destruct (random_loader _ _ _ _ _). }
    assert (Hg : state_at (S a) g =
                 (floop a (random_loader E data batch_size n_samples (state_at a g)).1
                        (tracker_new (tracker1 E))
                        (random_loader E data batch_size n_samples (state_at a g)).2).2).
    { cbn [gen_at]. by destruct (random_loader _ _ _ _ _). }
    destruct (random_loader E data batch_size n_samples (state_at a g)) as [loader g1].
    cbn [fst snd] in Hs, Hg.
    destruct (floop a loader (tracker_new (tracker1 E)) g1) as [tr g2].
    cbn [fst snd] in Hs, Hg. rewrite <- Hg, IH, <- Hs, <- app_assoc.
    f_equal. f_equal. lia.
Qed.

(** With detection on, a successful test ends the loop of the current
    feature: the batches left for this feature are not read. *)
Lemma feature_loop_break (ind : nat) (b : batch num label)
    (rest : list (batch num label)) tr g :
  let ev := subset_step E model impute loss_fn d m ind b g in
  let tr1 := tracker_update (tracker1 E) tr (delta ev) in
  feature_converged E total thr tr1 = true ->
  feature_loop E model impute loss_fn d m total true thr ind (b :: rest) tr g =
    (tr1, gen_after ev).
Proof.
  intros ev tr1 Hc. cbn [feature_loop andb]. unfold feature_converged in Hc.
  fold ev. fold tr1. by rewrite Hc.
Qed.
End FeaturesLoop.

Section IteratedResult.
Context {num : Type} `{Numeric num} {label rng : Type}.
Variable E : Env num label rng.


Lemma sampling_loop_raises (model : sklearn_model num) impute loss_fn d m total detect thr
    (bs : list (batch num label)) tr (g : rng) e :
  sampling_loop E model impute loss_fn d m total detect thr bs tr g = Raise e ->
  e = ValueError.
Proof.
  revert tr g. induction bs as [|b bs IH]; intros tr g; [done|].
  cbn [sampling_loop]. destruct (batch_update _ _ _ _ _ _ _ _ _) as [tr1 g1].
  unfold conf_of. destruct (tracker_var (tracker2 E) tr1) as [|v vs]; cbn.
  - by intros [= <-].
  - destruct (detect && _); [done | apply IH].
Qed.

(** C7.  With a reference imputation module and [m_samples <> 1] neither
    estimator raises on that account: the check yields the replicate count
    1 and the printed notice, and the call returns what the same call with
    [m_samples = 1] returns, which prints nothing.  No run with a reference
    module ends in an AssertionError. *)
Theorem reference_imputation_clamps_m_samples
    (model : sklearn_model num) (data : dataset num label) (impute : impute_fn num rng)
    (loss : string) (batch_size n_samples m_samples : nat) (detect : bool) (thr : num)
    (g : rng) :
  m_samples <> 1 ->
  let module := ReferenceImputation impute in
  let perm m := permutation_sampling E model data module loss batch_size n_samples m
                                     detect thr g in
  let iter m := iterated_sampling E model data module loss batch_size n_samples m
                                  detect thr g in
  check_imputation module m_samples = Ok (impute, 1, [notice])
  /\ perm m_samples = ([notice], (perm 1).2)
  /\ (perm 1).1 = []
  /\ (perm m_samples).2 <> Raise AssertionError
  /\ iter m_samples = ([notice], (iter 1).2)
  /\ (iter 1).1 = []
  /\ (iter m_samples).2 <> Raise AssertionError.
Proof.
  intros Hm module perm iter.
  assert (Hc : check_imputation module m_samples = Ok (impute, 1, [notice])).
  { cbn. by rewrite decide_True. }
  assert (Hc1 : check_imputation module 1 = Ok (impute, 1, @nil string)).
  { cbn. by rewrite decide_False by (intros Hne; by apply Hne). }
  assert (Hp : perm m_samples = ([notice], (perm 1).2) /\ (perm 1).1 = []).
  { subst perm. unfold permutation_sampling. rewrite Hc, Hc1.
    destruct (random_loader E data batch_size n_samples g) as [loader g1].
    by destruct (sampling_loop _ _ _ _ _ _ _ _ _ _ _ _) as [[tr g2]|e]. }
  assert (Hi : iter m_samples = ([notice], (iter 1).2) /\ (iter 1).1 = []).
  { subst iter. unfold iterated_sampling. rewrite Hc, Hc1.
    by destruct (features_loop _ _ _ _ _ _ _ _ _ _ _ _ _ _ _) as [scores g1]. }
  destruct Hp as [Hp Hp1], Hi as [Hi Hi1]. split_and!; try done.
  - subst perm. unfold permutation_sampling. rewrite Hc.
    destruct (random_loader E data batch_size n_samples g) as [loader g1].
    destruct (sampling_loop _ _ _ _ _ _ _ _ _ _ _ _) as [[tr g2]|e] eqn:Hloop; [done|].
    apply sampling_loop_raises in Hloop. by subst e.
  - subst iter. unfold iterated_sampling. rewrite Hc.
    destruct (features_loop _ _ _ _ _ _ _ _ _ _ _ _ _ _ _) as [scores g1].
    cbn [snd]. by destruct scores.
Qed.
End IteratedResult.


(** C7, witness: five replicates asked for with reference imputation. *)
Lemma reference_imputation_clamps_m_samples_witness :
  5 <> 1
  /\ permutation_sampling Toy.env Toy.first_feature Toy.data3
       (ReferenceImputation Toy.impute_zero) "mse" 2 6 5 false (Toy.q 1 100) 0
     = ([notice],
        (permutation_sampling Toy.env Toy.first_feature Toy.data3
           (ReferenceImputation Toy.impute_zero) "mse" 2 6 1 false (Toy.q 1 100) 0).2).
Proof.
  split; [lia|].
  destruct (reference_imputation_clamps_m_samples Toy.env Toy.first_feature Toy.data3
              Toy.impute_zero "mse" 2 6 5 false (Toy.q 1 100) 0 ltac:(lia))
    as (_ & Hperm & _).
  exact Hperm.
Defined.

(** The two runs of the witness, evaluated: same scores, notice printed
    only when the count had to be clamped. *)
Example toy_clamp_runs :
  let run m := permutation_sampling Toy.env Toy.first_feature Toy.data3
                 (ReferenceImputation Toy.impute_zero) "mse" 2 6 m false (Toy.q 1 100) 0 in
  let view (r : list string * res (list Qc)) :=
    (r.1, match r.2 with Ok v => Some (map this v) | Raise _ => None end) in
  view (run 5) = ([notice], Some [9 # 2; 0; 0]%Q)
  /\ view (run 1) = ([], Some [9 # 2; 0; 0]%Q).
Proof. split; vm_compute; reflexivity. Qed.

(** ** The convergence ratio and the sign of [total] *)

Lemma Qc_ltb_lt (a b : Qc) : Toy.Qc_ltb a b = true <-> (this a < this b)%Q.
Proof.
  unfold Toy.Qc_ltb, Qccompare. rewrite Qlt_alt.
  destruct (this a ?= this b)%Q; split; congruence.
Qed.

Lemma Q_div_neg_below (c t thr : Q) :
  (~ c < 0)%Q -> (t < 0)%Q -> (0 < thr)%Q -> (c * / t < thr)%Q.
Proof.
  destruct c as [cn cd], t as [tn td], thr as [hn hd].
  unfold Qlt, Qmult, Qinv. cbn. intros Hc Ht Hh.
  destruct tn as [|p|p]; cbn in *; try lia; nia.
Qed.

#[global] Instance Qc_ordered : OrderedArith Qc.
Proof.
  split.
  - intros a. destruct (Toy.Qc_ltb (fsqrt a) fzero) eqn:Hlt; [|done].
    apply Qc_ltb_lt in Hlt. cbn in Hlt. unfold Toy.Qc_sqrt in Hlt.
    cbn [this Q2Qc] in Hlt. rewrite !Qred_correct in Hlt.
    unfold Qlt in Hlt. cbn in Hlt.
    pose proof (Z.sqrt_nonneg (Qnum a * Z.pos (Qden a))). lia.
  - intros c t thr Hc Ht Hthr. apply Qc_ltb_lt.
    apply Qc_ltb_lt in Ht, Hthr.
    assert (Hc' : ~ (this c < this fzero)%Q).
    { intros Hlt. apply Qc_ltb_lt in Hlt. change (Toy.Qc_ltb c fzero = false) in Hc.
      congruence. }
    cbn in *. rewrite ?Qred_correct in *.
    by apply Q_div_neg_below.
Qed.

Section UnguardedRatio.
Context {num : Type} `{Numeric num} {label rng : Type}.
Variable E : Env num label rng.
Variable model : sklearn_model num.
Variable impute : impute_fn num rng.
Variable loss_fn : list (list num) -> list label -> list num.
Variable d m : nat.

(** The permutation loop ends after a prefix of its batches, or with the
    ValueError of [np.max] on an empty array. *)
Lemma sampling_loop_bounded (total thr : num) (detect : bool)
    (bs : list (batch num label)) tr (g : rng) :
  (exists k, k <= length bs /\
     sampling_loop E model impute loss_fn d m total detect thr bs tr g =
       Ok (fold_batches E model impute loss_fn d m (take k bs) (tr, g)))
  \/ sampling_loop E model impute loss_fn d m total detect thr bs tr g = Raise ValueError.
Proof.
  revert tr g. induction bs as [|b bs IH]; intros tr g.
  - left. exists 0. by split.
  - cbn [sampling_loop].
    destruct (batch_update E model impute loss_fn d m tr b g) as [tr1 g1] eqn:Hb.
    unfold conf_of. destruct (tracker_var (tracker2 E) tr1) as [|v vs]; cbn [np_max].
    + by right.
    + destruct (detect && _).
      * left. exists 1. split; [simpl; lia|]. cbn. by rewrite Hb.
      * destruct (IH tr1 g1) as [(k & Hk & Hrun)|Hraise]; [left | by right].
        exists (S k). split; [simpl; lia|]. rewrite Hrun. cbn. by rewrite Hb.
Qed.

(** The loop of one feature ends after a prefix of its minibatches. *)
Lemma feature_loop_bounded (total thr : num) (detect : bool) (ind : nat)
    (bs : list (batch num label)) tr (g : rng) :
  exists k, k <= length bs /\
    feature_loop E model impute loss_fn d m total detect thr ind bs tr g =
      fold_minibatches E model impute loss_fn d m ind (take k bs) (tr, g).
Proof.
  revert tr g. induction bs as [|b bs IH]; intros tr g.
  - exists 0. by split.
  - cbn [feature_loop]. destruct (detect && _).
    + exists 1. split; [simpl; lia | reflexivity].
    + destruct (IH (tracker_update (tracker1 E) tr
                      (delta (subset_step E model impute loss_fn d m ind b g)))
                   (gen_after (subset_step E model impute loss_fn d m ind b g)))
        as (k & Hk & Hrun).
      exists (S k). split; [simpl; lia|]. rewrite Hrun. reflexivity.
Qed.

End UnguardedRatio.




(** * Further properties of the three functions *)

(** ** The subset estimator's minibatch loop *)

Section FeatureLoopStops.
Context {num : Type} `{Numeric num} {label rng : Type}.
Variable E : Env num label rng.
Variable model : sklearn_model num.
Variable impute : impute_fn num rng.
Variable loss_fn : list (list num) -> list label -> list num.
Variable d m : nat.
Variable total thr : num.
Variable ind : nat.

Local Abbreviation floop detect :=
  (feature_loop E model impute loss_fn d m total detect thr ind).
Local Abbreviation fafter bs k s :=
  (fold_minibatches E model impute loss_fn d m ind (take k bs) s).
Local Abbreviation ftest tr := (feature_converged E total thr tr).

Lemma fafter_S b (bs : list (batch num label)) (k : nat) tr g :
  fafter (b :: bs) (S k) (tr, g) =
    fafter bs k
      (tracker_update (tracker1 E) tr
         (delta (subset_step E model impute loss_fn d m ind b g)),
       gen_after (subset_step E model impute loss_fn d m ind b g)).
Proof. reflexivity. Qed.

Lemma fafter_0 (bs : list (batch num label)) s : fafter bs 0 s = s.
Proof. reflexivity. Qed.

Lemma floop_first_success (bs : list (batch num label)) (k : nat) tr g :
  k < length bs ->
  (forall j, j < k -> ftest (fafter bs (S j) (tr, g)).1 = false) ->
  ftest (fafter bs (S k) (tr, g)).1 = true ->
  floop true bs tr g = fafter bs (S k) (tr, g).
Proof.
  revert k tr g. induction bs as [|b bs IH]; intros k tr g Hk Hbefore Hat.
  - simpl in Hk. lia.
  - cbn [feature_loop andb]. destruct k as [|k].
    + rewrite fafter_S, fafter_0 in Hat |- *. cbn [fst] in Hat.
      unfold feature_converged in Hat. by rewrite Hat.
    + pose proof (Hbefore 0 ltac:(lia)) as H0. rewrite fafter_S, fafter_0 in H0.
      cbn [fst] in H0. unfold feature_converged in H0. rewrite H0.
      rewrite (fafter_S b bs (S k)).
      apply IH; [simpl in Hk; lia | | by rewrite fafter_S in Hat].
      intros j Hj. specialize (Hbefore (S j) ltac:(lia)).
      by rewrite fafter_S in Hbefore.
Qed.

Lemma floop_no_break (detect : bool) (bs : list (batch num label)) tr g :
  (detect = true ->
   forall j, j < length bs -> ftest (fafter bs (S j) (tr, g)).1 = false) ->
  floop detect bs tr g = fafter bs (length bs) (tr, g).
Proof.
  revert tr g. induction bs as [|b bs IH]; intros tr g Hall; [reflexivity|].
  cbn [feature_loop length]. rewrite fafter_S.
  set (tr1 := tracker_update (tracker1 E) tr
                (delta (subset_step E model impute loss_fn d m ind b g))).
  assert (Hgo : detect && flt (fdiv (fsqrt (tracker_var (tracker1 E) tr1)) total) thr
                = false).
  { destruct detect; [|done]. cbn [andb].
    specialize (Hall eq_refl 0 ltac:(simpl; lia)).
    by rewrite fafter_S, fafter_0 in Hall. }
  rewrite Hgo. apply IH. intros Hd j Hj.
  specialize (Hall Hd (S j) ltac:(simpl; lia)). by rewrite fafter_S in Hall.
Qed.

(** X1.  The minibatch loop of one feature of the subset estimator: with
    detection on it ends at the first minibatch after which
    [sqrt(var) / total < threshold], with the tracker as it is after that
    minibatch; if no minibatch passes the test it folds them all; with
    detection off it folds them all whatever the ratio is. *)
Theorem feature_loop_stops_at_first_convergence
    (bs : list (batch num label)) (tr : tracker (tracker1 E)) (g : rng) :
  (forall k, k < length bs ->
     (forall j, j < k -> ftest (fafter bs (S j) (tr, g)).1 = false) ->
     ftest (fafter bs (S k) (tr, g)).1 = true ->
     floop true bs tr g = fafter bs (S k) (tr, g))
  /\ ((forall j, j < length bs -> ftest (fafter bs (S j) (tr, g)).1 = false) ->
      floop true bs tr g = fafter bs (length bs) (tr, g))
  /\ floop false bs tr g = fafter bs (length bs) (tr, g).
Proof.
  split; [|split].
  - intros k. apply floop_first_success.
  - intros Hall. apply floop_no_break. by intros _.
  - by apply floop_no_break.
Qed.
End FeatureLoopStops.

(** X1, witness: feature 0 on eight minibatches of two draws from
    [Toy.data3], threshold 2.  The ratio is 2, 3, 22/9 and 9/4 after the
    first four minibatches and 246/125 after the fifth. *)
Lemma feature_loop_stops_at_first_convergence_witness :
  let bs := (Toy.round_robin Toy.data3 2 16 0).1 in
  let total := estimate_total Toy.first_feature Toy.mse Toy.data3 2 in
  let after k := fold_minibatches Toy.env Toy.first_feature Toy.impute_parity Toy.mse
                                  3 2 0 (take k bs) (tracker_new (tracker1 Toy.env), 16) in
  4 < length bs
  /\ (forall j, j < 4 ->
        feature_converged Toy.env total (Toy.q 2 1) (after (S j)).1 = false)
  /\ feature_converged Toy.env total (Toy.q 2 1) (after 5).1 = true
  /\ feature_loop Toy.env Toy.first_feature Toy.impute_parity Toy.mse 3 2 total true
                  (Toy.q 2 1) 0 bs (tracker_new (tracker1 Toy.env)) 16 = after 5.
Proof.
  intros bs total after.
  assert (Hlen : 4 < length bs) by (vm_compute; lia).
  assert (Hbefore : forall j, j < 4 ->
            feature_converged Toy.env total (Toy.q 2 1) (after (S j)).1 = false).
  { intros j Hj. do 4 (destruct j as [|j]; [vm_compute; reflexivity|]). lia. }
  assert (Hat : feature_converged Toy.env total (Toy.q 2 1) (after 5).1 = true)
    by (vm_compute; reflexivity).
  split; [done|]. split; [done|]. split; [done|].
  exact (proj1 (feature_loop_stops_at_first_convergence Toy.env Toy.first_feature
                  Toy.impute_parity Toy.mse 3 2 total (Toy.q 2 1) 0 bs
                  (tracker_new (tracker1 Toy.env)) 16) 4 Hlen Hbefore Hat).
Defined.

(** ** Stopping early and running without detection *)

Section PrefixRun.
Context {num : Type} `{Numeric num} {label rng : Type}.
Variable E : Env num label rng.
Variable model : sklearn_model num.
Variable impute : impute_fn num rng.
Variable loss_fn : list (list num) -> list label -> list num.
Variable d m : nat.
Variable total thr : num.

Lemma sampling_loop_prefix (detect : bool) (bs : list (batch num label)) tr (g : rng) s :
  sampling_loop E model impute loss_fn d m total detect thr bs tr g = Ok s ->
  exists k, k <= length bs
    /\ s = fold_batches E model impute loss_fn d m (take k bs) (tr, g)
    /\ sampling_loop E model impute loss_fn d m total false thr (take k bs) tr g = Ok s.
Proof.
  revert tr g. induction bs as [|b bs IH]; intros tr g.
  - cbn. intros [= <-]. exists 0. by split_and!.
  - cbn [sampling_loop].
    destruct (batch_update E model impute loss_fn d m tr b g) as [tr1 g1] eqn:Hb.
    destruct (conf_of E tr1) as [conf|e] eqn:Hconf; [|done].
    destruct (detect && below_threshold total thr conf).
    + intros [= <-]. exists 1. split; [simpl; lia|]. split.
      * cbn. by rewrite Hb.
      * cbn [take sampling_loop]. rewrite Hb, Hconf. reflexivity.
    + intros Hrun. destruct (IH tr1 g1 Hrun) as (k & Hk & Hs & Hoff).
      exists (S k). split; [simpl; lia|]. split.
      * rewrite Hs. cbn. by rewrite Hb.
      * cbn [take sampling_loop]. rewrite Hb, Hconf. exact Hoff.
Qed.

(** X2.  Detection only decides where a loop stops.  Whenever the
    permutation loop returns, it has folded the first [k] batches for some
    [k], and the loop without detection given just those [k] batches
    returns the same tracker and generator; the loop of a feature of the
    subset estimator always returns what its run without detection on some
    prefix of the minibatches returns. *)
Theorem early_stop_is_run_on_prefix :
  (forall detect bs tr g s,
     sampling_loop E model impute loss_fn d m total detect thr bs tr g = Ok s ->
     exists k, k <= length bs
       /\ s = fold_batches E model impute loss_fn d m (take k bs) (tr, g)
       /\ sampling_loop E model impute loss_fn d m total false thr (take k bs) tr g
          = Ok s)
  /\ (forall detect ind bs tr g,
        exists k, k <= length bs
          /\ feature_loop E model impute loss_fn d m total detect thr ind bs tr g =
             feature_loop E model impute loss_fn d m total false thr ind (take k bs) tr g).
Proof.
  split.
  - intros detect bs tr g s. apply sampling_loop_prefix.
  - intros detect ind bs tr g.
    destruct (feature_loop_bounded E model impute loss_fn d m total thr detect ind bs tr g)
      as (k & Hk & Hrun).
    exists k. split; [done|]. rewrite Hrun.
    rewrite (floop_no_break E model impute loss_fn d m total thr ind false) by done.
    by rewrite length_take, Nat.min_l, take_take, Nat.min_id by done.
Qed.
End PrefixRun.

(** X2, witness: the run that stops after six of eight batches. *)
Lemma early_stop_is_run_on_prefix_witness :
  let bs := (Toy.round_robin Toy.data3 2 16 0).1 in
  let total := estimate_total Toy.first_feature Toy.mse Toy.data3 2 in
  let s := fold_batches Toy.env Toy.first_feature Toy.impute_zero Toy.mse 3 1
                        (take 6 bs) (tracker_new (tracker2 Toy.env), 16) in
  sampling_loop Toy.env Toy.first_feature Toy.impute_zero Toy.mse 3 1 total true
                (Toy.q 2 1) bs (tracker_new (tracker2 Toy.env)) 16 = Ok s
  /\ exists k, k <= length bs
       /\ sampling_loop Toy.env Toy.first_feature Toy.impute_zero Toy.mse 3 1 total false
                        (Toy.q 2 1) (take k bs) (tracker_new (tracker2 Toy.env)) 16 = Ok s.
Proof.
  intros bs total s.
  assert (Hrun : sampling_loop Toy.env Toy.first_feature Toy.impute_zero Toy.mse 3 1
                   total true (Toy.q 2 1) bs (tracker_new (tracker2 Toy.env)) 16 = Ok s).
  { apply (loop_first_success Toy.env Toy.first_feature Toy.impute_zero Toy.mse 3 1
             total (Toy.q 2 1) bs 5); [vm_compute; lia | | vm_compute; reflexivity].
    intros j Hj. do 5 (destruct j as [|j]; [vm_compute; reflexivity|]). lia. }
  split; [exact Hrun|].
  destruct (proj1 (early_stop_is_run_on_prefix Toy.env Toy.first_feature Toy.impute_zero
                     Toy.mse 3 1 total (Toy.q 2 1))
              true bs (tracker_new (tracker2 Toy.env)) 16 s Hrun) as (k & Hk & _ & Hoff).
  exists k. by split.
Defined.

(** ** Exceptions and output of the two estimators *)

Section Outcomes.
Context {num : Type} `{Numeric num} {label rng : Type}.
Variable E : Env num label rng.
Variable model : sklearn_model num.
Variable data : dataset num label.
Variable loss : string.
Variable batch_size n_samples m_samples : nat.
Variable detect : bool.
Variable thr : num.
Variable g : rng.

Local Abbreviation perm module :=
  (permutation_sampling E model data module loss batch_size n_samples m_samples
                        detect thr g).
Local Abbreviation iter module :=
  (iterated_sampling E model data module loss batch_size n_samples m_samples
                     detect thr g).

Lemma check_imputation_ok (module : imputation_module num rng) :
  module <> NotImputation ->
  exists impute m' out, check_imputation module m_samples = Ok (impute, m', out).
Proof.
  destruct module as [impute|impute|]; [| |done]; intros _; cbn.
  - destruct (decide (m_samples ≠ 1)); eauto.
  - eauto.
Qed.


End Outcomes.


(** ** More on the reveal loop *)

Lemma nth_repeat_rows {A} (m n c r : nat) (rows : list A) (dflt : A) :
  length rows = n -> c < m -> r < n ->
  nth (c * n + r) (repeat_rows m rows) dflt = nth r rows dflt.
Proof.
  intros Hl. revert c. unfold repeat_rows.
  induction m as [|m IH]; intros c Hc Hr; [lia|].
  cbn [replicate concat]. destruct c as [|c].
  - cbn [Nat.mul Nat.add]. apply app_nth1. lia.
  - replace (S c * n + r) with (length rows + (c * n + r)) by lia.
    rewrite app_nth2_plus. apply IH; lia.
Qed.

Section RevealFrame.
Context {num : Type} `{Numeric num} {label rng : Type}.
Variable model : sklearn_model num.
Variable impute : impute_fn num rng.
Variable loss_fn : list (list num) -> list label -> list num.
Variable d m : nat.
Variable x : list (list num).
Variable y : list label.
Variable n : nat.
Variable perms : list (list nat).

Hypothesis loss_rows : forall P yy, length (loss_fn P yy) = length yy.
Hypothesis y_len : length y = n.
Hypothesis perms_len : length perms = m * n.
Hypothesis perms_perm : Forall (fun row => row ≡ₚ seq 0 d) perms.
Hypothesis m_pos : 0 < m.

Local Abbreviation step := (reveal_step model impute loss_fn m x y n perms).
Local Abbreviation upto := (reveal_upto model impute loss_fn m x y n perms).
Local Abbreviation feature r i := (nth i (nth r perms []) 0).

(** A step leaves every entry of [S] but the revealed one as it was. *)
Lemma step_mask_other (st : reveal num rng) (i r j : nat) :
  r < m * n -> j <> feature r i ->
  nth j (nth r (mask (step st i)) []) false = nth j (nth r (mask st) []) false.
Proof.
  intros Hr Hj. rewrite step_mask. rewrite !(nth_lookup _ r). unfold set_ones.
  rewrite lookup_zip_with. destruct (mask st !! r) as [row|]; [|done]. cbn.
  rewrite (column_lookup m y n perms y_len perms_len m_pos i r Hr). cbn.
  by rewrite !(nth_lookup _ j), list_lookup_insert_ne by congruence.
Qed.

(** A step leaves every entry of [scores] but the revealed one as it was. *)
Lemma step_scores_other (st : reveal num rng) (i r j : nat) :
  shaped d m n st -> r < n -> j <> feature r i ->
  nth j (nth r (scores (step st i)) []) fzero = nth j (nth r (scores st) []) fzero.
Proof.
  intros Hst Hr Hj.
  rewrite (step_score_row model impute loss_fn d m x y n perms loss_rows y_len
             perms_len m_pos st i r Hst Hr).
  by rewrite !(nth_lookup _ j), list_lookup_insert_ne by congruence.
Qed.

Variable st0 : reveal num rng.
Hypothesis st0_shaped : shaped d m n st0.
Hypothesis st0_mask : forall r j, nth j (nth r (mask st0) []) false = false.

(** A feature whose position has not come yet is still held out. *)
Lemma upto_mask_unrevealed (k r i : nat) :
  r < m * n -> k <= i -> i < d ->
  nth (feature r i) (nth r (mask (upto st0 k)) []) false = false.
Proof.
  intros Hr. induction k as [|k IH]; intros Hk Hi; [apply st0_mask|].
  rewrite upto_S, step_mask_other; [apply IH; lia | done |].
  intros Heq.
  apply (feature_inj d m y n perms y_len perms_len perms_perm m_pos) in Heq; lia.
Qed.

(** After [k] positions the features revealed to a row are exactly the first
    [k] of its permutation. *)
Lemma upto_mask_iff (k r j : nat) :
  k <= d -> r < m * n -> j < d ->
  nth j (nth r (mask (upto st0 k)) []) false = true
  <-> exists i, i < k /\ feature r i = j.
Proof.
  intros Hk Hr Hj. split.
  - intros Htrue. destruct (lookup_lt_is_Some_2 perms r) as [row Hrow]; [lia|].
    pose proof (Forall_lookup_1 _ perms _ _ perms_perm Hrow) as Hp. cbn in Hp.
    assert (Hin : j ∈ row).
    { eapply elem_of_Permutation_proper; [exact Hp|]. apply elem_of_seq. lia. }
    apply list_elem_of_lookup in Hin as [i Hi].
    assert (Hid : i < d).
    { apply lookup_lt_Some in Hi. destruct (perm_row_facts d row Hp) as [Hl _]. lia. }
    assert (Hf : feature r i = j).
    { rewrite (nth_lookup perms), Hrow. cbn. by rewrite nth_lookup, Hi. }
    exists i. split; [|done]. destruct (decide (i < k)) as [|Hge]; [done|].
    rewrite <- Hf, upto_mask_unrevealed in Htrue by lia. done.
  - intros (i & Hi & <-).
    by apply (upto_mask_revealed model impute loss_fn d m x y n perms loss_rows y_len
                perms_len perms_perm m_pos st0 st0_shaped k i r).
Qed.
End RevealFrame.

Section RevealedSets.
Context {num : Type} `{Numeric num} {label rng : Type}.
Variable E : Env num label rng.
Variable model : sklearn_model num.
Variable impute : impute_fn num rng.
Variable loss_fn : list (list num) -> list label -> list num.
Variable d m : nat.

Hypothesis randperm_perm : forall k g, (randperm E k g).1 ≡ₚ seq 0 k.
Hypothesis loss_rows : forall P yy, length (loss_fn P yy) = length yy.
Hypothesis m_pos : 0 < m.

Lemma zero_mask_false (n r j : nat) :
  nth j (nth r (repeat_rows m (replicate n (replicate d false))) []) false = false.
Proof.
  rewrite (nth_lookup (repeat_rows _ _)).
  destruct (repeat_rows m (replicate n (replicate d false)) !! r) as [row|] eqn:Hrow;
    cbn [from_option id]; [|by destruct j].
  assert (Hin : row ∈ repeat_rows m (replicate n (replicate d false)))
    by (apply list_elem_of_lookup; eauto).
  assert (Hall : Forall (fun row => row = replicate d false)
                        (repeat_rows m (replicate n (replicate d false)))).
  { apply Forall_repeat_rows, Forall_replicate. reflexivity. }
  rewrite Forall_forall in Hall. rewrite (Hall _ Hin), nth_lookup.
  destruct (decide (j < d)).
  - by rewrite lookup_replicate_2.
  - rewrite (proj2 (lookup_ge_None _ _)); [done|]. rewrite length_replicate. lia.
Qed.


(** X6.  At every point of the reveal loop the mask is exactly the
    coalition the permutations prescribe: after [k] positions, entry [j] of
    row [r] is 1 if and only if [j] is among the first [k] features of the
    row's permutation, and no other entry is ever set.  The [m_samples]
    replicates of an example have the same mask row throughout. *)
Theorem revealed_set_is_permutation_prefix (b : batch num label) (g : rng)
    xr perms st0 :
  length b.1 = length b.2 ->
  reveal_init E model impute loss_fn d m b g = (xr, perms, st0) ->
  let n := length b.1 in
  let st := reveal_upto model impute loss_fn m xr b.2 n perms st0 in
  (forall k r j, k <= d -> r < m * n -> j < d ->
     nth j (nth r (mask (st k)) []) false = true
     <-> exists i, i < k /\ nth i (nth r perms []) 0 = j)
  /\ (forall k c r j, k <= d -> c < m -> r < n ->
        nth j (nth (c * n + r) (mask (st k)) []) false =
          nth j (nth r (mask (st k)) []) false).
Proof.
  intros Hxy Hinit n st.
  destruct (reveal_init_facts E model impute loss_fn d m randperm_perm loss_rows
              b g xr perms st0 Hxy Hinit)
    as (_ & Hperms & Hpl & Hpp & Hsh & _ & Hmask & _).
  fold n in Hperms, Hpl, Hsh, Hmask.
  assert (Hy : length b.2 = n) by done.
  assert (H0 : forall r j, nth j (nth r (mask st0) []) false = false).
  { intros r j. rewrite Hmask. apply zero_mask_false. }
  assert (Hiff : forall k r j, k <= d -> r < m * n -> j < d ->
            nth j (nth r (mask (st k)) []) false = true
            <-> exists i, i < k /\ nth i (nth r perms []) 0 = j).
  { intros k r j. by apply (upto_mask_iff model impute loss_fn d m xr b.2 n perms). }
  split; [exact Hiff|].
  intros k c r j Hk Hc Hr.
  assert (Hcr : c * n + r < m * n) by nia. assert (Hr' : r < m * n) by nia.
  destruct (decide (j < d)) as [Hj|Hj].
  - apply eq_true_iff_eq. rewrite !Hiff by done.
    destruct (sample_permutations_perm E randperm_perm n d g) as [Hl _].
    rewrite Hperms, (nth_repeat_rows m n c r _ [] Hl Hc Hr).
    by rewrite <- (nth_repeat_rows m n 0 r _ [] Hl m_pos Hr).
  - destruct (upto_shaped model impute loss_fn d m xr b.2 n perms loss_rows Hy Hpl
                m_pos st0 k Hsh) as (Hm1 & Hm2 & _).
    fold (st k) in Hm1, Hm2. rewrite Forall_forall in Hm2.
    rewrite !(nth_overflow (nth _ (mask (st k)) [])); [done|..].
    + rewrite (Hm2 (nth r (mask (st k)) [])); [lia|].
      apply list_elem_of_In, nth_In. lia.
    + rewrite (Hm2 (nth (c * n + r) (mask (st k)) [])); [lia|].
      apply list_elem_of_In, nth_In. lia.
Qed.

(** X7.  A reveal position changes one entry per row and nothing else: in
    [S] and in [scores], every entry other than the one at the row's
    feature just revealed is what it was before the position. *)
Theorem reveal_step_changes_one_entry_per_row (b : batch num label) (g : rng)
    xr perms st0 :
  length b.1 = length b.2 ->
  reveal_init E model impute loss_fn d m b g = (xr, perms, st0) ->
  let n := length b.1 in
  let st := reveal_upto model impute loss_fn m xr b.2 n perms st0 in
  forall i, i < d ->
    (forall r j, r < m * n -> j <> nth i (nth r perms []) 0 ->
       nth j (nth r (mask (st (S i))) []) false = nth j (nth r (mask (st i)) []) false)
    /\ (forall r j, r < n -> j <> nth i (nth r perms []) 0 ->
          nth j (nth r (scores (st (S i))) []) fzero =
            nth j (nth r (scores (st i)) []) fzero).
Proof.
  intros Hxy Hinit n st i Hi.
  destruct (reveal_init_facts E model impute loss_fn d m randperm_perm loss_rows
              b g xr perms st0 Hxy Hinit)
    as (_ & _ & Hpl & Hpp & Hsh & _). fold n in Hpl, Hsh.
  assert (Hy : length b.2 = n) by done.
  subst st. cbv beta. rewrite upto_S. split.
  - intros r j Hr Hj.
    by apply (step_mask_other model impute loss_fn m xr b.2 n perms Hy Hpl m_pos).
  - intros r j Hr Hj.
    apply (step_scores_other model impute loss_fn d m xr b.2 n perms loss_rows Hy Hpl
             m_pos); [|done|done].
    by apply upto_shaped.
Qed.
End RevealedSets.


Lemma revealed_set_is_permutation_prefix_witness :
  (forall k g, (randperm Toy.env k g).1 ≡ₚ seq 0 k)
  /\ (forall P yy, length (Toy.mse P yy) = length yy)
  /\ 0 < 2
  /\ let b : batch Qc Qc := collate (take 2 (items Toy.data3)) in
     let init := reveal_init Toy.env Toy.first_feature Toy.impute_parity Toy.mse 3 2 b 0 in
     let st := reveal_upto Toy.first_feature Toy.impute_parity Toy.mse 2
                           init.1.1 b.2 2 init.1.2 init.2 in
     length b.1 = length b.2
     /\ forall k r j, k <= 3 -> r < 2 * 2 -> j < 3 ->
          nth j (nth r (mask (st k)) []) false = true
          <-> exists i, i < k /\ nth i (nth r init.1.2 []) 0 = j.
Proof.
  split; [apply toy_randperm_perm|]. split; [apply toy_mse_rows|]. split; [lia|].
  intros b init st. split; [reflexivity|].
  destruct (revealed_set_is_permutation_prefix Toy.env Toy.first_feature
              Toy.impute_parity Toy.mse 3 2 toy_randperm_perm toy_mse_rows ltac:(lia)
              b 0 init.1.1 init.1.2 init.2 eq_refl (triple_eta init)) as [Hiff _].
  exact Hiff.
Defined.

Lemma reveal_step_changes_one_entry_per_row_witness :
  (forall k g, (randperm Toy.env k g).1 ≡ₚ seq 0 k)
  /\ (forall P yy, length (Toy.mse P yy) = length yy)
  /\ 0 < 2
  /\ let b : batch Qc Qc := collate (take 2 (items Toy.data3)) in
     let init := reveal_init Toy.env Toy.first_feature Toy.impute_parity Toy.mse 3 2 b 0 in
     let st := reveal_upto Toy.first_feature Toy.impute_parity Toy.mse 2
                           init.1.1 b.2 2 init.1.2 init.2 in
     length b.1 = length b.2
     /\ 1 < 3
     /\ forall r j, r < 2 -> j <> nth 1 (nth r init.1.2 []) 0 ->
          nth j (nth r (scores (st 2)) []) fzero = nth j (nth r (scores (st 1)) []) fzero.
Proof.
  split; [apply toy_randperm_perm|]. split; [apply toy_mse_rows|]. split; [lia|].
  intros b init st. split; [reflexivity|]. split; [lia|].
  destruct (reveal_step_changes_one_entry_per_row Toy.env Toy.first_feature
              Toy.impute_parity Toy.mse 3 2 toy_randperm_perm toy_mse_rows ltac:(lia)
              b 0 init.1.1 init.1.2 init.2 eq_refl (triple_eta init) 1 ltac:(lia))
    as [_ Hsc].
  exact Hsc.
Defined.

(** ** estimate_total over the whole dataset *)

Lemma chunks_fuel_bounded {A} (fuel b : nat) (l : list A) :
  Forall (fun c => length c <= b) (chunks_fuel fuel b l).
Proof.
  revert l. induction fuel as [|f IH]; intros l; [constructor|].
  destruct l as [|a l]; [constructor|].
  cbn [chunks_fuel]. constructor; [|apply IH].
  rewrite length_take. lia.
Qed.

Section WholeDataset.
Context {num : Type} `{Numeric num} {label : Type}.
Variable model : sklearn_model num.
Variable loss_fn : list (list num) -> list label -> list num.

Lemma pass1_N (bs : list (batch num label)) (t : totals num) :
  N (fold_left (pass1_step model loss_fn) bs t) = N t + length (concat (map fst bs)).
Proof.
  revert t. induction bs as [|[x y] bs IH]; intros t.
  - simpl. lia.
  - cbn [fold_left map concat fst]. rewrite IH, length_app.
    unfold pass1_step, pass2_step. cbn [N]. lia.
Qed.

Lemma pass2_N (bs : list (batch num label)) (t : totals num) :
  N (fold_left (pass2_step loss_fn) bs t) = N t + length (concat (map fst bs)).
Proof.
  revert t. induction bs as [|[x y] bs IH]; intros t.
  - simpl. lia.
  - cbn [fold_left map concat fst]. rewrite IH, length_app.
    unfold pass1_step, pass2_step. cbn [N]. lia.
Qed.

Lemma DataLoader_inputs (data : dataset num label) (batch_size : nat) :
  0 < batch_size ->
  concat (map fst (DataLoader data batch_size)) = map fst (items data)
  /\ concat (map snd (DataLoader data batch_size)) = map snd (items data).
Proof.
  intros Hb. unfold DataLoader. rewrite !map_map. cbn [collate fst snd].
  rewrite <- !concat_map. by rewrite chunks_concat.
Qed.

Lemma DataLoader_shape (data : dataset num label) (batch_size : nat) :
  0 < batch_size ->
  Forall (fun b : batch num label =>
            0 < length b.1 <= batch_size /\ length b.1 = length b.2)
         (DataLoader data batch_size).
Proof.
  intros Hb. unfold DataLoader. apply Forall_map.
  pose proof (chunks_fuel_nonempty (length (items data)) batch_size (items data) Hb)
    as Hne.
  pose proof (chunks_fuel_bounded (length (items data)) batch_size (items data))
    as Hle.
  unfold chunks. induction Hne as [|c cs Hc Hcs IH]; [constructor|].
  apply Forall_cons_1 in Hle as [Hle1 Hle2].
  constructor; [|by apply IH]. cbn. rewrite !length_map. lia.
Qed.

(** X8.  For a batch size of at least 1 each of the two loops of
    [estimate_total] sees every example of the dataset exactly once and in
    order, in batches of at most [batch_size] rows with as many labels as
    rows, and ends with [N] equal to the size of the dataset. *)
Theorem estimate_total_visits_every_example
    (data : dataset num label) (batch_size : nat) :
  0 < batch_size ->
  let bs := DataLoader data batch_size in
  concat (map fst bs) = map fst (items data)
  /\ concat (map snd bs) = map snd (items data)
  /\ Forall (fun b : batch num label =>
               0 < length b.1 <= batch_size /\ length b.1 = length b.2) bs
  /\ N (fold_left (pass1_step model loss_fn) bs totals_init) = length (items data)
  /\ N (estimate_total_run model loss_fn bs) = length (items data).
Proof.
  intros Hb bs. destruct (DataLoader_inputs data batch_size Hb) as [Hx Hy].
  fold bs in Hx, Hy. split_and!; [done | done | | |].
  - by apply DataLoader_shape.
  - rewrite pass1_N, Hx, length_map. reflexivity.
  - unfold estimate_total_run. rewrite pass2_N, Hx, length_map. reflexivity.
Qed.
End WholeDataset.

(** X8, witness: [Toy.data3] in batches of 2. *)
Lemma estimate_total_visits_every_example_witness :
  0 < 2
  /\ N (estimate_total_run Toy.first_feature Toy.mse (DataLoader Toy.data3 2))
     = length (items Toy.data3).
Proof.
  split; [lia|].
  destruct (estimate_total_visits_every_example Toy.first_feature Toy.mse Toy.data3 2
              ltac:(lia)) as (_ & _ & _ & _ & HN).
  exact HN.
Defined.

Section DatasetMeans.
Context {num : Type} `{MeanArith num} {label : Type}.
Variable model : sklearn_model num.
Variable loss_fn : list (list num) -> list label -> list num.

Lemma np_sum_app (l1 l2 : list num) :
  np_sum (l1 ++ l2) = fadd (np_sum l1) (np_sum l2).
Proof. unfold np_sum at 1. by rewrite fold_left_app, fold_fadd_acc. Qed.

(** The running mean of the batch means of non-empty batches is the sum of
    everything seen divided by the number of things seen. *)
Lemma running_mean_total (vs : list (list num)) (N : nat) (old S : num) :
  Forall (fun v => 0 < length v) vs -> vs <> [] ->
  fmul (of_int N) old = S ->
  running_mean N old (map (fun v => (length v, np_mean v)) vs) =
    fdiv (fadd S (np_sum (concat vs))) (of_int (N + length (concat vs))).
Proof.
  intros Hvs. revert N old S.
  induction Hvs as [|v vs Hv Hvs IH]; intros N old S Hne HS; [done|].
  cbn [map running_mean]. rewrite HS. unfold np_mean at 1.
  rewrite fmul_fdiv by done.
  destruct vs as [|v' vs'].
  - cbn [map running_mean concat]. by rewrite app_nil_r.
  - rewrite (IH _ _ (fadd S (np_sum v))); [|done|].
    + cbn [concat]. rewrite (np_sum_app v), fadd_assoc, (length_app v).
      do 2 f_equal. lia.
    + apply fmul_fdiv. lia.
Qed.

Lemma running_mean_is_mean (vs : list (list num)) :
  Forall (fun v => 0 < length v) vs -> vs <> [] ->
  running_mean 0 fzero (map (fun v => (length v, np_mean v)) vs) = np_mean (concat vs).
Proof.
  intros Hvs Hne. rewrite (running_mean_total vs 0 fzero fzero Hvs Hne).
  - by rewrite fadd_0_l.
  - apply fmul_0_l.
Qed.

(** The LossFunction contract: one loss per label. *)
Hypothesis loss_rows : forall P yy, length (loss_fn P yy) = length yy.

(** X9.  Under exact arithmetic, for a non-empty dataset and a batch size
    of at least 1, the two size-weighted running means of [estimate_total]
    are plain means over the whole dataset: [mean_loss] is the sum of the
    losses of all examples divided by their number, [marginal_loss]
    likewise for the losses of the repeated mean prediction, and the result
    is the difference of the two. *)
Theorem estimate_total_is_difference_of_dataset_means
    (data : dataset num label) (batch_size : nat) :
  0 < batch_size -> items data <> [] ->
  let bs := DataLoader data batch_size in
  let t := estimate_total_run model loss_fn bs in
  let model_losses :=
    concat (map (fun b : batch num label => loss_fn (predict model b.1) b.2) bs) in
  let marginal_losses :=
    concat (map (fun b : batch num label =>
                   loss_fn (nd_repeat (marginal_pred t) (length b.2)) b.2) bs) in
  length model_losses = length (items data)
  /\ length marginal_losses = length (items data)
  /\ mean_loss t = np_mean model_losses
  /\ marginal_loss t = np_mean marginal_losses
  /\ estimate_total model loss_fn data batch_size =
       fsub (np_mean marginal_losses) (np_mean model_losses).
Proof.
  intros Hb Hitems bs t model_losses marginal_losses.
  destruct (DataLoader_inputs data batch_size Hb) as [_ Hy].
  pose proof (DataLoader_shape data batch_size Hb) as Hshape.
  fold bs in Hy, Hshape.
  assert (Hne : bs <> []).
  { subst bs. unfold DataLoader, chunks. destruct (items data) as [|a l]; [done|].
    cbn. done. }
  assert (Hlen : forall f : batch num label -> list num,
            (forall b, length (f b) = length b.2) ->
            length (concat (map f bs)) = length (items data)
            /\ running_mean 0 fzero (map (fun b => (length b.1, np_mean (f b))) bs)
               = np_mean (concat (map f bs))).
  { intros f Hf. split.
    - rewrite <- (length_map snd (items data)), <- Hy.
      clear -Hf. induction bs as [|b bs' IH]; [done|].
      cbn [map concat]. by rewrite !length_app, IH, Hf.
    - rewrite <- running_mean_is_mean.
      + rewrite map_map. f_equal. apply map_ext_Forall.
        eapply Forall_impl; [exact Hshape|]. intros b [_ Hbl]. cbn.
        by rewrite Hf, Hbl.
      + apply Forall_map. eapply Forall_impl; [exact Hshape|].
        intros b [[Hpos _] Hbl]. cbn. rewrite Hf. lia.
      + by destruct bs. }
  destruct (Hlen (fun b => loss_fn (predict model b.1) b.2)) as [Hl1 Hm1];
    [intros b; apply loss_rows|].
  destruct (Hlen (fun b => loss_fn (nd_repeat (marginal_pred t) (length b.2)) b.2))
    as [Hl2 Hm2]; [intros b; apply loss_rows|].
  assert (Hmean : mean_loss t = np_mean model_losses).
  { subst t. unfold estimate_total_run.
    destruct (pass1_means model loss_fn bs totals_init) as (Hm & _ & _).
    set (t1 := {| N := 0; mean_loss := _ |}).
    destruct (pass2_means loss_fn bs t1) as (_ & -> & _).
    subst t1. cbn [mean_loss]. rewrite Hm. exact Hm1. }
  assert (Hmarg : marginal_loss t = np_mean marginal_losses).
  { subst marginal_losses. rewrite <- Hm2. subst t. unfold estimate_total_run.
    set (t1 := {| N := 0; mean_loss := _ |}).
    destruct (pass2_means loss_fn bs t1) as (-> & _ & Hmp).
    rewrite Hmp. reflexivity. }
  split_and!; try done.
  unfold estimate_total, estimate_total_on. fold bs. fold t. by rewrite Hmean, Hmarg.
Qed.
End DatasetMeans.

#[global] Instance Qc_mean : MeanArith Qc.
Proof.
  split.
  - intros a. change (0 * a = 0)%Qc. ring.
  - intros n a Hn. cbn [fmul fdiv Toy.Qc_numeric]. apply Qcmult_div_r.
    intros Heq. apply Q2Qc_eq_iff in Heq. unfold Qeq in Heq. cbn in Heq. lia.
Qed.

(** X9, witness: [Toy.data3] in batches of 2. *)
Lemma estimate_total_is_difference_of_dataset_means_witness :
  (forall P yy, length (Toy.mse P yy) = length yy)
  /\ 0 < 2
  /\ items Toy.data3 <> []
  /\ let bs := DataLoader Toy.data3 2 in
     mean_loss (estimate_total_run Toy.first_feature Toy.mse bs) =
       np_mean (concat (map (fun b : batch Qc Qc =>
                               Toy.mse (predict Toy.first_feature b.1) b.2) bs)).
Proof.
  split; [apply toy_mse_rows|]. split; [lia|].
  assert (Hne : items Toy.data3 <> []) by done.
  split; [done|]. intros bs.
  destruct (estimate_total_is_difference_of_dataset_means Toy.first_feature Toy.mse
              toy_mse_rows Toy.data3 2 ltac:(lia) Hne) as (_ & _ & Hmean & _).
  exact Hmean.
Defined.

(** ** A single replicate *)

Section SingleReplicate.
Context {num : Type} `{Numeric num} {label rng : Type}.
Variable model : sklearn_model num.
Variable impute : impute_fn num rng.
Variable loss_fn : list (list num) -> list label -> list num.

(** Dividing by 1 changes nothing (true of floats as of exact numbers). *)
Hypothesis fdiv_1 : forall a : num, fdiv a (of_int 1) = a.

Lemma replicate_mean_1 (y_hat : list (list num)) : replicate_mean 1 y_hat = y_hat.
Proof.
  unfold replicate_mean, reshape, mean_blocks. rewrite Nat.div_1_r.
  cbn [seq map sum_axis0 fold_left length Nat.mul drop]. rewrite firstn_all.
  rewrite <- (map_id y_hat) at 2. apply map_ext. intros row.
  rewrite <- (map_id row) at 2. apply map_ext. intros a. apply fdiv_1.
Qed.

(** X10.  With one replicate nothing is repeated and nothing averaged:
    [x.repeat(1, 1)] is [x], and each loss is the loss of the model's
    prediction on the imputed batch.  A reference imputation module always
    runs this way, whatever [m_samples] was passed. *)
Theorem single_replicate_is_plain_loss
    (x : list (list num)) (S : list (list bool)) (y : list label) (g : rng)
    (m_samples : nat) :
  repeat_rows 1 x = x
  /\ masked_loss model impute loss_fn 1 x S y g =
       (loss_fn (predict model (impute x S g).1) y, (impute x S g).2)
  /\ exists out,
       check_imputation (ReferenceImputation impute) m_samples = Ok (impute, 1, out).
Proof.
  split_and!.
  - unfold repeat_rows. cbn. apply app_nil_r.
  - unfold masked_loss. destruct (impute x S g) as [xi g']. cbn [fst snd].
    by rewrite replicate_mean_1.
  - cbn. destruct (decide (m_samples ≠ 1)) as [Hm|Hm]; [by eexists|].
    assert (m_samples = 1) as -> by (destruct (decide (m_samples = 1)); [done|by destruct Hm]).
    by eexists.
Qed.
End SingleReplicate.

(** X10, witness: rationals divide by 1 exactly. *)
Lemma single_replicate_is_plain_loss_witness :
  (forall a : Qc, fdiv a (of_int 1) = a)
  /\ masked_loss Toy.first_feature Toy.impute_zero Toy.mse 1
       [[Toy.q 7 1]] [[false]] [Toy.q 0 1] 0 =
     (Toy.mse (predict Toy.first_feature
                 (Toy.impute_zero [[Toy.q 7 1]] [[false]] 0).1) [Toy.q 0 1],
      (Toy.impute_zero [[Toy.q 7 1]] [[false]] 0).2).
Proof.
  assert (H1 : forall a : Qc, fdiv a (of_int 1) = a).
  { intros a. cbn. apply Qc_is_canon. cbn. rewrite !Qred_correct. field. }
  split; [exact H1|].
  destruct (single_replicate_is_plain_loss Toy.first_feature Toy.impute_zero Toy.mse H1
              [[Toy.q 7 1]] [[false]] [Toy.q 0 1] 0 1) as (_ & Hloss & _).
  exact Hloss.
Defined.
